(** * The document store of the block editor (App component)

    A shallow embedding of the page/document state kept by the [App]
    component: the block and page records of [types.ts], the React state
    variables with their queued updates, the page callbacks
    ([handleAddPage], [handleDeletePage], [handleSwitchPage],
    [updateBlocksForCurrentPage], [handleAiSearch]) and the two
    [localStorage] effects (load on mount, save on change).

    Conventions of the embedding.
    - A JavaScript string is a [string]; its characters stand for the code
      units below 256.  [Date.now()] is an integer, printed in decimal by
      a template literal.
    - [string | null] is [option string]; an optional record field is an
      [option].
    - The [pages] object is a list of own properties in the order
      [Object.keys] enumerates them.  A property read [o[k]] goes through
      the prototype chain: where [o] has no own property [k], it finds
      the member of that name every plain object inherits from
      [Object.prototype], if there is one.
    - A callback runs against the render whose closure it captured and
      queues state updates; React commits the queue, in order, on the
      state current at commit time.  An updater that throws while React
      processes the queue is a render error: no error boundary is
      installed, so React unmounts the component tree. *)

From Stdlib Require Import Strings.Ascii ZArith.
From Equations Require Import Equations.
From Equations.Prop Require Import Logic.
From stdpp Require Import base option list strings pretty gmap.

Local Open Scope string_scope.
Local Open Scope Z_scope.

(** ** Strings *)

Module JsString.

(** The white space and line terminator code units below 256, the ones
    [String.prototype.trim] removes: TAB, LF, VT, FF, CR, SP, NBSP. *)
Definition isWhiteSpace (c : ascii) : bool :=
  let n := N_of_ascii c in
  (((9 <=? n) && (n <=? 13)) || (n =? 32) || (n =? 160))%N.

Fixpoint trimStart (s : string) : string :=
  match s with
  | EmptyString => EmptyString
  | String c t => if isWhiteSpace c then trimStart t else s
  end.

Fixpoint trimEnd (s : string) : string :=
  match s with
  | EmptyString => EmptyString
  | String c t =>
      match trimEnd t with
      | EmptyString => if isWhiteSpace c then EmptyString else String c EmptyString
      | r => String c r
      end
  end.

Definition trim (s : string) : string := trimStart (trimEnd s).

(** [s || d] on strings: the empty string is the only falsy one. *)
Definition or_else (s d : string) : string :=
  match s with EmptyString => d | _ => s end.

(** Truthiness of a [string | null]. *)
Definition truthy (o : option string) : bool :=
  match o with
  | Some (String _ _) => true
  | _ => false
  end.

(** *** The pattern [/<[^>]*>?/] *)

Definition lt_sign : ascii := "<"%char.
Definition gt_sign : ascii := ">"%char.

(** [[^>]*], greedy: what is left after the longest run of characters
    other than [>]. *)
Fixpoint skip_not_gt (s : string) : string :=
  match s with
  | EmptyString => EmptyString
  | String c t => if Ascii.eqb c gt_sign then s else skip_not_gt t
  end.

(** [>?], greedy. *)
Definition skip_opt_gt (s : string) : string :=
  match s with
  | String c t => if Ascii.eqb c gt_sign then t else s
  | EmptyString => EmptyString
  end.

(** The pattern tried at the head of [s]: the rest of [s] after the
    match, or [None] when the head is not [<].  No alternative needs
    backtracking: the star stops in front of [>] or at the end. *)
Definition match_tag (s : string) : option string :=
  match s with
  | String c t =>
      if Ascii.eqb c lt_sign then Some (skip_opt_gt (skip_not_gt t)) else None
  | EmptyString => None
  end.

Lemma skip_not_gt_length s : (String.length (skip_not_gt s) <= String.length s)%nat.
Proof.
  induction s as [|c t IH]; simpl; [lia|].
  destruct (Ascii.eqb c gt_sign); simpl; lia.
Qed.

Lemma skip_opt_gt_length s : (String.length (skip_opt_gt s) <= String.length s)%nat.
Proof.
  destruct s as [|c t]; simpl; [lia|].
  destruct (Ascii.eqb c gt_sign); simpl; lia.
Qed.

Lemma match_tag_shorter s rest :
  match_tag s = Some rest -> (String.length rest < String.length s)%nat.
Proof.
  destruct s as [|c t]; simpl; [discriminate|].
  destruct (Ascii.eqb c lt_sign); [|discriminate].
  intros [= <-].
  pose proof (skip_opt_gt_length (skip_not_gt t)).
  pose proof (skip_not_gt_length t). lia.
Qed.

(** [s.replace(/<[^>]*>?/gm, '')]: scanning from the left, every match
    is dropped and the scan resumes right after it; a character at which
    the pattern does not match is kept. *)
Equations? replace_tags (s : string) : string by wf (String.length s) lt :=
  replace_tags EmptyString := EmptyString;
  replace_tags (String c t) with inspect (match_tag (String c t)) => {
    | exist _ (Some rest) Hm := replace_tags rest;
    | exist _ None _ := String c (replace_tags t) }.
Proof.
  - exact (match_tag_shorter _ _ Hm).
  - simpl. lia.
Qed.

End JsString.

Example trim_ex : JsString.trim "  a b 	" = "a b".
Proof. reflexivity. Qed.
Example replace_ex : JsString.replace_tags "Hello <b>World</b>" = "Hello World".
Proof. reflexivity. Qed.
Example replace_ex2 : JsString.replace_tags "a <b c" = "a ".
Proof. reflexivity. Qed.

(** ** Data model ([types.ts]) *)

Module BlockType.
Inductive t : Set :=
| H1 | H2 | P | UL | OL | TODO | IMG | QUOTE | DIVIDER | CODE
| AI_SEARCH_RESULT.

#[global] Instance eq_dec : EqDecision t.
Proof. solve_decision. Defined.
End BlockType.

(** An element of [sources]: [{ web: { uri, title } }]. *)
Module Source.
Record web_t : Set := { uri : string; title : string }.
Record t : Set := { web : web_t }.
End Source.

Module ContentBlock.
Record t : Set := {
  id : string;
  type : BlockType.t;
  content : string;
  checked : option bool;
  src : option string;
  language : option string;
  sources : option (list Source.t);
}.
End ContentBlock.

Module Page.
Record t : Set := {
  id : string;
  title : string;
  blocks : list ContentBlock.t;
}.
End Page.

(** What a property of the [pages] object holds at run time: a [Page],
    or an object that has [title] and [blocks] but no [id] — the result of
    spreading something that is no page into a page literal. *)
Module PageValue.
Inductive t : Set :=
| Full (page : Page.t)
| NoId (title : string) (blocks : list ContentBlock.t).

(** [value.id], which a value without that property does not have *)
Definition id (value : t) : option string :=
  match value with
  | Full page => Some (Page.id page)
  | NoId _ _ => None
  end.

(** [value.title] *)
Definition title (value : t) : string :=
  match value with
  | Full page => Page.title page
  | NoId title _ => title
  end.

(** [value.blocks] *)
Definition blocks (value : t) : list ContentBlock.t :=
  match value with
  | Full page => Page.blocks page
  | NoId _ blocks => blocks
  end.

(** [{ ...value, blocks }] *)
Definition with_blocks (value : t) (blocks : list ContentBlock.t) : t :=
  match value with
  | Full page =>
      Full {| Page.id := Page.id page; Page.title := Page.title page;
              Page.blocks := blocks |}
  | NoId title _ => NoId title blocks
  end.

(** [{ ...value, blocks, title }] *)
Definition with_blocks_title (value : t) (blocks : list ContentBlock.t) (title : string)
  : t :=
  match value with
  | Full page =>
      Full {| Page.id := Page.id page; Page.blocks := blocks; Page.title := title |}
  | NoId _ _ => NoId title blocks
  end.
End PageValue.

Module PageTemplate.
Record t : Set := {
  id : string;
  name : string;
  description : string;
  blocks : list ContentBlock.t;
}.
End PageTemplate.

Inductive Theme : Set := light | dark.

(** [blocks.find(b => b.type === BlockType.H1)] *)
Definition find_H1 (blocks : list ContentBlock.t) : option ContentBlock.t :=
  List.find (fun b => bool_decide (ContentBlock.type b = BlockType.H1)) blocks.

(** ** Plain objects used as maps ([Record<string, V>]) *)

Module JsObject.
Section Props.
Context {V : Type}.

(** Own properties, in enumeration order: array-index keys first, by
    increasing index, then the other keys in creation order. *)
Definition t : Type := list (string * V).

Definition digit (c : ascii) : option N :=
  let n := N_of_ascii c in
  if ((48 <=? n) && (n <=? 57))%N then Some (n - 48)%N else None.

Fixpoint digits (acc : N) (s : string) : option N :=
  match s with
  | EmptyString => Some acc
  | String c r =>
      match digit c with
      | Some d => digits (10 * acc + d)%N r
      | None => None
      end
  end.

(** The index a key denotes when it is the canonical decimal form of
    an integer below [2^32 - 1]. *)
Definition array_index (k : string) : option N :=
  match k with
  | EmptyString => None
  | String c r =>
      if Ascii.eqb c "0"%char
      then match r with EmptyString => Some 0%N | _ => None end
      else match digits 0 k with
           | Some n => if (n <? 4294967295)%N then Some n else None
           | None => None
           end
  end.

(** The own property [k] of [o], if it has one. *)
Fixpoint get (k : string) (o : t) : option V :=
  match o with
  | [] => None
  | (k', v) :: r => if String.eqb k' k then Some v else get k r
  end.

(** [Object.keys(o).includes(k)]: [k] is an own property of [o]. *)
Definition has (k : string) (o : t) : bool :=
  match get k o with Some _ => true | None => false end.

(** The names of the members every plain object inherits from
    [Object.prototype]; each of them is a function or, for [__proto__],
    the prototype object itself, hence truthy and without enumerable own
    properties. *)
Definition inherited_names : list string :=
  [ "constructor"; "hasOwnProperty"; "isPrototypeOf"; "propertyIsEnumerable";
    "toLocaleString"; "toString"; "valueOf";
    "__defineGetter__"; "__defineSetter__"; "__lookupGetter__"; "__lookupSetter__";
    "__proto__" ].

Definition inherited_name (k : string) : bool :=
  List.existsb (String.eqb k) inherited_names.

(** What [o[k]] evaluates to: an own property, an inherited member, or
    [undefined]. *)
Inductive Lookup : Type :=
| Own (v : V)
| Inherited
| Missing.

(** [o[k]] *)
Definition read (k : string) (o : t) : Lookup :=
  match get k o with
  | Some v => Own v
  | None => if inherited_name k then Inherited else Missing
  end.

(** Whether [o[k]] is truthy, for an object whose own properties hold
    objects. *)
Definition reads (k : string) (o : t) : bool :=
  match read k o with Missing => false | _ => true end.

(** [Object.keys(o)] *)
Definition keys (o : t) : list string := List.map fst o.

(** [delete o[k]] *)
Definition delete (k : string) (o : t) : t :=
  List.filter (fun kv => negb (String.eqb (fst kv) k)) o.

(** Overwriting an own property keeps its place. *)
Fixpoint overwrite (k : string) (v : V) (o : t) : t :=
  match o with
  | [] => []
  | (k', v') :: r =>
      if String.eqb k' k then (k', v) :: r else (k', v') :: overwrite k v r
  end.

(** A new array-index key goes in front of the first larger index and
    of every other key. *)
Fixpoint place_index (n : N) (k : string) (v : V) (o : t) : t :=
  match o with
  | [] => [(k, v)]
  | (k', v') :: r =>
      match array_index k' with
      | Some m => if (n <? m)%N then (k, v) :: o
                  else (k', v') :: place_index n k v r
      | None => (k, v) :: o
      end
  end.

(** [o[k] = v] on a fresh copy, as in [{ ...o, [k]: v }]. *)
Definition set (k : string) (v : V) (o : t) : t :=
  match get k o with
  | Some _ => overwrite k v o
  | None =>
      match array_index k with
      | Some n => place_index n k v o
      | None => (o ++ [(k, v)])%list
      end
  end.
End Props.
Arguments t : clear implicits.
Arguments Lookup : clear implicits.
End JsObject.

Example set_order :
  JsObject.keys (JsObject.set "7" 1 (JsObject.set "page-2" 2 (JsObject.set "10" 3 (JsObject.set "page-1" 4 []))))
  = ["7"; "10"; "page-1"; "page-2"].
Proof. reflexivity. Qed.
Example array_index_ex : List.map (@JsObject.array_index) ["0"; "01"; "42"; "4294967294"; "4294967295"; "page-1"; ""]
  = [Some 0; None; Some 42; Some 4294967294; None; None; None]%N.
Proof. reflexivity. Qed.

(** ** React state and its queued updates *)

Abbreviation Pages := (JsObject.t PageValue.t).

(** How a piece of JavaScript ends: normally with a value, or by throwing
    (for an [async] function: by rejecting). *)
Inductive Completion (A : Type) : Type :=
| Normal (a : A)
| Throw (error : string).
Arguments Normal {A} a.
Arguments Throw {A} error.

(** The [useState] variables of the component, and [renderError]: the
    error thrown by a state updater while React processed the queue.
    When it is set React has unmounted the component tree, and the other
    fields no longer denote anything. *)
Record State : Type := {
  pages : Pages;
  currentPageId : option string;
  theme : Theme;
  isCommandPaletteOpen : bool;
  isAiSearchOpen : bool;
  renderError : option string;
}.

(** The state of the first render. *)
Definition initialState : State :=
  {| pages := []; currentPageId := None; theme := light;
     isCommandPaletteOpen := false; isAiSearchOpen := false;
     renderError := None |}.

(** A call of a state setter.  [setPages] and [setCommandPaletteOpen]
    carry an updater [prev => next]; a plain value is the constant
    updater.  The updater of [setPages] may throw. *)
Inductive Update : Type :=
| setPages (updater : Pages -> Completion Pages)
| setCurrentPageId (value : option string)
| setTheme (value : Theme)
| setCommandPaletteOpen (updater : bool -> bool)
| setAiSearchOpen (value : bool).

Definition apply_update (st : State) (u : Update) : State :=
  match u with
  | setPages f =>
      match f (pages st) with
      | Normal next =>
          {| pages := next; currentPageId := currentPageId st;
             theme := theme st; isCommandPaletteOpen := isCommandPaletteOpen st;
             isAiSearchOpen := isAiSearchOpen st; renderError := renderError st |}
      | Throw error =>
          {| pages := pages st; currentPageId := currentPageId st;
             theme := theme st; isCommandPaletteOpen := isCommandPaletteOpen st;
             isAiSearchOpen := isAiSearchOpen st; renderError := Some error |}
      end
  | setCurrentPageId v =>
      {| pages := pages st; currentPageId := v;
         theme := theme st; isCommandPaletteOpen := isCommandPaletteOpen st;
         isAiSearchOpen := isAiSearchOpen st;
         renderError := renderError st |}
  | setTheme v =>
      {| pages := pages st; currentPageId := currentPageId st;
         theme := v; isCommandPaletteOpen := isCommandPaletteOpen st;
         isAiSearchOpen := isAiSearchOpen st;
         renderError := renderError st |}
  | setCommandPaletteOpen f =>
      {| pages := pages st; currentPageId := currentPageId st;
         theme := theme st; isCommandPaletteOpen := f (isCommandPaletteOpen st);
         isAiSearchOpen := isAiSearchOpen st;
         renderError := renderError st |}
  | setAiSearchOpen v =>
      {| pages := pages st; currentPageId := currentPageId st;
         theme := theme st; isCommandPaletteOpen := isCommandPaletteOpen st;
         isAiSearchOpen := v;
         renderError := renderError st |}
  end.

(** React applies the queued updates in the order of the calls. *)
Definition commit (queue : list Update) (st : State) : State :=
  List.fold_left apply_update queue st.

(** ** The world a callback runs in *)

(** What the platform and the other modules provide. *)
Record Env : Type := {
  (** the successive readings of [Date.now()] *)
  clock : nat -> Z;
  (** [window.matchMedia('(prefers-color-scheme: dark)').matches] *)
  prefersDark : bool;
  (** whether [localStorage.setItem(k, v)] throws on the given store *)
  storageFull : gmap string string -> string -> string -> bool;
  (** [JSON.parse] on a persisted page mapping; [None] when it throws *)
  JSON_parse : string -> option Pages;
  JSON_stringify : Pages -> string;
  (** the catalogue exported by [templates/pageTemplates] *)
  pageTemplates : list PageTemplate.t;
  (** how [geminiService.generateWithGoogleSearch(prompt)] settles *)
  generateWithGoogleSearch : string -> Completion (string * list Source.t);
}.

Record World : Type := {
  ticks : nat;
  localStorage : gmap string string;
  console : list string;
}.

Record Outcome (A : Type) : Type := {
  completion : Completion A;
  queued : list Update;
  world : World;
}.
Arguments completion {A} _.
Arguments queued {A} _.
Arguments world {A} _.

Definition Handler (A : Type) : Type := Env -> World -> Outcome A.

#[global] Instance Handler_ret : MRet Handler := fun A a _ w =>
  {| completion := Normal a; queued := []; world := w |}.

#[global] Instance Handler_bind : MBind Handler := fun A B f m env w =>
  let o := m env w in
  match completion o with
  | Normal a =>
      let o' := f a env (world o) in
      {| completion := completion o';
         queued := (queued o ++ queued o')%list;
         world := world o' |}
  | Throw e => {| completion := Throw e; queued := queued o; world := world o |}
  end.

(** [try { body } catch (error) { handler(error) }] *)
Definition try_catch {A} (body : Handler A) (handler : string -> Handler A) : Handler A :=
  fun env w =>
    let o := body env w in
    match completion o with
    | Normal a => o
    | Throw e =>
        let o' := handler e env (world o) in
        {| completion := completion o';
           queued := (queued o ++ queued o')%list;
           world := world o' |}
    end.

(** [await p] for a promise that settles as [c]. *)
Definition await {A} (c : Env -> Completion A) : Handler A := fun env w =>
  {| completion := c env; queued := []; world := w |}.

Definition call (u : Update) : Handler unit := fun _ w =>
  {| completion := Normal tt; queued := [u]; world := w |}.

Definition Date_now : Handler Z := fun env w =>
  {| completion := Normal (clock env (ticks w)); queued := [];
     world := {| ticks := S (ticks w); localStorage := localStorage w;
                 console := console w |} |}.

Definition matchMedia_prefersDark : Handler bool := fun env w =>
  {| completion := Normal (prefersDark env); queued := []; world := w |}.

Definition console_error (message : string) : Handler unit := fun _ w =>
  {| completion := Normal tt; queued := [];
     world := {| ticks := ticks w; localStorage := localStorage w;
                 console := (console w ++ [message])%list |} |}.

Definition localStorage_getItem (key : string) : Handler (option string) := fun _ w =>
  {| completion := Normal (localStorage w !! key); queued := []; world := w |}.

Definition localStorage_setItem (key value : string) : Handler unit := fun env w =>
  if storageFull env (localStorage w) key value
  then {| completion := Throw "QuotaExceededError"; queued := []; world := w |}
  else {| completion := Normal tt; queued := [];
          world := {| ticks := ticks w;
                      localStorage := <[key := value]> (localStorage w);
                      console := console w |} |}.

Definition localStorage_removeItem (key : string) : Handler unit := fun _ w =>
  {| completion := Normal tt; queued := [];
     world := {| ticks := ticks w; localStorage := base.delete key (localStorage w);
                 console := console w |} |}.

(** Running a callback to completion and committing what it queued on the
    state [st] that is current when React processes the queue. *)
Definition dispatch {A} (h : Handler A) (env : Env) (w : World) (st : State)
  : Completion A * World * State :=
  let o := h env w in
  (completion o, world o, commit (queued o) st).

Definition state_after {A} (h : Handler A) (env : Env) (w : World) (st : State) : State :=
  commit (queued (h env w)) st.

(** ** The page callbacks *)

Definition plain_block (id : string) (type : BlockType.t) (content : string)
  : ContentBlock.t :=
  {| ContentBlock.id := id; ContentBlock.type := type;
     ContentBlock.content := content; ContentBlock.checked := None;
     ContentBlock.src := None; ContentBlock.language := None;
     ContentBlock.sources := None |}.

(** [newPage.title = title] *)
Definition with_title (page : Page.t) (title : string) : Page.t :=
  {| Page.id := Page.id page; Page.title := title; Page.blocks := Page.blocks page |}.

(** A [setPages] updater that cannot throw. *)
Definition returning (updater : Pages -> Pages) : Pages -> Completion Pages :=
  fun prev => Normal (updater prev).

(** The two blocks of a page created without a [blocks] argument, for the
    two clock readings taken while building them. *)
Definition defaultBlocks (t1 t2 : Z) : list ContentBlock.t :=
  [ plain_block (pretty t1 +:+ "-1") BlockType.H1 "Untitled";
    plain_block (pretty t2 +:+ "-2") BlockType.P "" ].

Definition handleAddPage (blocks : option (list ContentBlock.t)) : Handler unit :=
  t0 ← Date_now;
  let newPageId := "page-" +:+ pretty t0 in
  t1 ← Date_now;
  t2 ← Date_now;
  let newPage :=
    {| Page.id := newPageId;
       Page.title := "Untitled";
       Page.blocks := default (defaultBlocks t1 t2) blocks |} in
  (* If using a template, derive title from first H1 *)
  let newPage :=
    match blocks with
    | Some blocks =>
        match find_H1 blocks with
        | Some h1Block => with_title newPage (ContentBlock.content h1Block)
        | None => newPage
        end
    | None => newPage
    end in
  call (setPages (returning (fun prev =>
          JsObject.set newPageId (PageValue.Full newPage) prev)));;
  call (setCurrentPageId (Some newPageId)).

(** [r] is the render whose [pages] and [currentPageId] the callback
    closes over. *)
Definition handleDeletePage (r : State) (pageIdToDelete : string) : Handler unit :=
  let remainingPageIds :=
    List.filter (fun id => negb (String.eqb id pageIdToDelete))
                (JsObject.keys (pages r)) in
  call (setPages (returning (fun prev => JsObject.delete pageIdToDelete prev)));;
  if bool_decide (currentPageId r = Some pageIdToDelete) then
    match remainingPageIds with
    | first :: _ => call (setCurrentPageId (Some first))
    | [] => handleAddPage None
    end
  else mret tt.

Definition handleSwitchPage (pageId : string) : Handler unit :=
  call (setCurrentPageId (Some pageId));;
  call (setCommandPaletteOpen (fun _ => false)).

(** The updater [updateBlocksForCurrentPage] passes to [setPages].
    [prev[currentPageId]] may be a stored value, or an inherited member:
    that one is truthy too, and spreading it contributes no property, so
    that the new entry has [blocks] and [title] only. *)
Definition replaceBlocks (currentPageId : string) (newBlocks : list ContentBlock.t)
  (prev : Pages) : Pages :=
  let currentPage := JsObject.read currentPageId prev in
  match currentPage with
  | JsObject.Missing => prev
  | _ =>
      let h1Block := find_H1 newBlocks in
      let newTitle :=
        match h1Block with
        | Some h1Block =>
            JsString.trim (JsString.replace_tags (ContentBlock.content h1Block))
        | None => "Untitled"
        end in
      JsObject.set currentPageId
        match currentPage with
        | JsObject.Own currentPage =>
            PageValue.with_blocks_title currentPage newBlocks
              (JsString.or_else newTitle "Untitled")
        | _ => PageValue.NoId (JsString.or_else newTitle "Untitled") newBlocks
        end
        prev
  end.

Definition updateBlocksForCurrentPage (r : State) (newBlocks : list ContentBlock.t)
  : Handler unit :=
  match currentPageId r with
  | None | Some EmptyString => mret tt
  | Some currentPageId =>
      call (setPages (returning (replaceBlocks currentPageId newBlocks)))
  end.

(** The updater [handleAiSearch] passes to [setPages].  When
    [prev[currentPageId]] is an inherited member, its [blocks] is
    [undefined] and spreading it into the array literal throws. *)
Definition appendAiResult (currentPageId : string)
  (promptBlock resultBlock : ContentBlock.t) (prev : Pages) : Completion Pages :=
  match JsObject.read currentPageId prev with
  | JsObject.Missing => Normal prev
  | JsObject.Own currentPage =>
      let newBlocks :=
        (PageValue.blocks currentPage ++ [promptBlock; resultBlock])%list in
      Normal (JsObject.set currentPageId (PageValue.with_blocks currentPage newBlocks) prev)
  | JsObject.Inherited => Throw "TypeError"
  end.

(** [r] is the render in which the search was started; everything after
    the [await] runs when the external call has settled. *)
Definition handleAiSearch (r : State) (prompt : string) : Handler unit :=
  match currentPageId r with
  | None | Some EmptyString => mret tt
  | Some currentPageId =>
      '(text, sources) ← await (fun env => generateWithGoogleSearch env prompt);
      t0 ← Date_now;
      let resultBlock :=
        {| ContentBlock.id := "search-result-" +:+ pretty t0;
           ContentBlock.type := BlockType.AI_SEARCH_RESULT;
           ContentBlock.content := text;
           ContentBlock.checked := None; ContentBlock.src := None;
           ContentBlock.language := None;
           ContentBlock.sources := Some sources |} in
      t1 ← Date_now;
      let promptBlock :=
        plain_block ("search-prompt-" +:+ pretty t1) BlockType.QUOTE ("> " +:+ prompt) in
      call (setPages (appendAiResult currentPageId promptBlock resultBlock))
  end.

(** [const currentPage = currentPageId ? pages[currentPageId] : null];
    [Missing] stands for [null] and [undefined]. *)
Definition currentPageValue (r : State) : JsObject.Lookup PageValue.t :=
  match currentPageId r with
  | None | Some EmptyString => JsObject.Missing
  | Some currentPageId => JsObject.read currentPageId (pages r)
  end.

(** The current page as a [Page]: what [currentPageValue] holds when that
    is a stored page object.  There is none when nothing is read, and
    none when what is read is not a page (an inherited member, or an
    entry without [id]). *)
Definition currentPage (r : State) : option Page.t :=
  match currentPageValue r with
  | JsObject.Own (PageValue.Full page) => Some page
  | _ => None
  end.

(** ** The persistence effects *)

Definition Theme_string (t : Theme) : string :=
  match t with light => "light" | dark => "dark" end.

(** [JSON.parse(savedPages)] *)
Definition parse_pages (savedPages : string) : Handler Pages := fun env w =>
  {| completion :=
       match JSON_parse env savedPages with
       | Some parsedPages => Normal parsedPages
       | None => Throw "SyntaxError"
       end;
     queued := []; world := w |}.

(** [pageTemplates[0].blocks]: reading [blocks] of [undefined] throws. *)
Definition first_template_blocks : Handler (list ContentBlock.t) := fun env w =>
  {| completion :=
       match pageTemplates env with
       | template :: _ => Normal (PageTemplate.blocks template)
       | [] => Throw "TypeError"
       end;
     queued := []; world := w |}.

(** [JSON.stringify(pages)] *)
Definition stringify_pages (pages : Pages) : Handler string := fun env w =>
  {| completion := Normal (JSON_stringify env pages); queued := []; world := w |}.

(** [['light', 'dark'].includes(savedTheme)], with the theme it names. *)
Definition Theme_of_string (s : string) : option Theme :=
  if String.eqb s "light" then Some light
  else if String.eqb s "dark" then Some dark
  else None.

(** The effect run once, after the first render. *)
Definition loadEffect : Handler unit :=
  (* Load theme *)
  savedTheme ← localStorage_getItem "editor-theme";
  match savedTheme ≫= Theme_of_string with
  | Some savedTheme => call (setTheme savedTheme)
  | None =>
      (* Set theme based on system preference *)
      prefersDark ← matchMedia_prefersDark;
      call (setTheme (if prefersDark : bool then dark else light))
  end;;
  (* Load pages *)
  try_catch
    (savedPages ← localStorage_getItem "editor-pages";
     savedCurrentPageId ← localStorage_getItem "editor-currentPageId";
     match savedPages with
     | Some (String _ _ as savedPages) =>
         parsedPages ← parse_pages savedPages;
         call (setPages (returning (fun _ => parsedPages)));;
         let saved_id_resolves :=
           match savedCurrentPageId with
           | Some (String _ _ as id) => JsObject.reads id parsedPages
           | _ => false
           end in
         if saved_id_resolves then call (setCurrentPageId savedCurrentPageId)
         else match JsObject.keys parsedPages with
              | first :: _ => call (setCurrentPageId (Some first))
              | [] => mret tt
              end
     | _ =>
         (* If no saved pages, create a default one *)
         blocks ← first_template_blocks;
         handleAddPage (Some blocks)
     end)
    (fun error =>
       console_error "Failed to load pages from localStorage";;
       handleAddPage None).

(** The effect run after every render in which [pages], [currentPageId]
    or [theme] changed; [r] is that render.  The class list of the
    document element is presentation and is left out. *)
Definition saveEffect (r : State) : Handler unit :=
  (* Theme *)
  localStorage_setItem "editor-theme" (Theme_string (theme r));;
  (* Pages *)
  try_catch
    ((if (0 <? length (JsObject.keys (pages r)))%nat
      then json ← stringify_pages (pages r);
           localStorage_setItem "editor-pages" json
      else localStorage_removeItem "editor-pages");;
     match currentPageId r with
     | Some (String _ _ as currentPageId) =>
         localStorage_setItem "editor-currentPageId" currentPageId
     | _ => localStorage_removeItem "editor-currentPageId"
     end)
    (fun error => console_error "Failed to save to localStorage").

(** ** The command palette hotkey *)

(** The fields of a [KeyboardEvent] the listener reads. *)
Record KeyboardEvent : Set := {
  metaKey : bool;
  ctrlKey : bool;
  key : string;
}.

(** The [keydown] listener; its value tells whether it called
    [e.preventDefault()]. *)
Definition keydownHandler (e : KeyboardEvent) : Handler bool :=
  if (metaKey e || ctrlKey e) && String.eqb (key e) "k"
  then call (setCommandPaletteOpen (fun isOpen => negb isOpen));; mret true
  else mret false.

(** ** Sequences of store operations *)

(** The three operations the sidebar and the command palette offer. *)
Inductive StoreOp : Type :=
| createPage (initialBlocks : option (list ContentBlock.t))
| deletePage (id : string)
| switchPage (id : string).

(** The callback an operation invokes, taken from render [r]. *)
Definition callback (r : State) (op : StoreOp) : Handler unit :=
  match op with
  | createPage initialBlocks => handleAddPage initialBlocks
  | deletePage id => handleDeletePage r id
  | switchPage id => handleSwitchPage id
  end.

(** One operation: the callback of the current render runs and React
    commits what it queued before the next operation sees the state. *)
Definition step (env : Env) (s : World * State) (op : StoreOp) : World * State :=
  let o := callback (snd s) op env (fst s) in
  (world o, commit (queued o) (snd s)).

(** The states after each operation of a sequence, in order. *)
Fixpoint trace (env : Env) (s : World * State) (ops : list StoreOp)
  : list (World * State) :=
  match ops with
  | [] => []
  | op :: ops => let s' := step env s op in s' :: trace env s' ops
  end.

(** [currentPageId] is empty, or it is a key of [pages].  [blank] says
    which values of [currentPageId] count as empty. *)
Definition resolves_unless (blank : option string -> Prop) (st : State) : Prop :=
  blank (currentPageId st) \/
  exists id, currentPageId st = Some id /\ In id (JsObject.keys (pages st)).

(** Empty as [null]. *)
Definition is_null (c : option string) : Prop := c = None.

(** Empty as the callbacks test it, [!currentPageId]: [null] or the empty
    string. *)
Definition is_falsy (c : option string) : Prop := JsString.truthy c = false.

(** Every [switchPage] of the sequence names a page that exists when it
    is called. *)
Fixpoint switches_to_existing (env : Env) (s : World * State) (ops : list StoreOp)
  : bool :=
  match ops with
  | [] => true
  | op :: ops =>
      match op with
      | switchPage id => JsObject.has id (pages (snd s))
      | _ => true
      end && switches_to_existing env (step env s op) ops
  end.

(** ** The title rule of the page invariant

    The derivation the specification gives for a page title, written
    from its words and independently of the code above: take the first
    heading-1 block, strip the markup tags from its content, trim white
    space, and fall back to "Untitled" when there is no such block or
    nothing is left. *)

(** The parts of the rule that do not depend on what a tag is. *)
Module TitleText.

(** The first heading-1 block of a sequence. *)
Fixpoint firstHeading (blocks : list ContentBlock.t) : option ContentBlock.t :=
  match blocks with
  | [] => None
  | block :: rest =>
      match ContentBlock.type block with
      | BlockType.H1 => Some block
      | _ => firstHeading rest
      end
  end.

(** White space: the tab, the line feed, the vertical tab, the form
    feed, the carriage return, the space and the no-break space. *)
Definition isSpace (c : ascii) : bool :=
  List.existsb (Nat.eqb (nat_of_ascii c)) [9; 10; 11; 12; 13; 32; 160]%nat.

Fixpoint skipSpaces (l : list ascii) : list ascii :=
  match l with
  | [] => []
  | c :: rest => if isSpace c then skipSpaces rest else l
  end.

(** The text without the white space at its two ends. *)
Definition trim (s : string) : string :=
  String.string_of_list_ascii
    (List.rev (skipSpaces (List.rev (skipSpaces (String.list_ascii_of_string s))))).

(** The title for the stripped content of the first heading, if any. *)
Definition titleOf (stripped : option string) : string :=
  match stripped with
  | Some text => if String.eqb (trim text) "" then "Untitled" else trim text
  | None => "Untitled"
  end.

End TitleText.

(** The rule with markup tags as markup has them: a start tag [<name ...>]
    or an end tag [</name>], where the name begins with a letter and the
    tag ends at the first [>] that is not inside a quoted attribute
    value.  A [<] that opens no such tag is text. *)
Module TitleRule.

Definition isLetter (c : ascii) : bool :=
  let n := nat_of_ascii c in
  ((65 <=? n) && (n <=? 90) || (97 <=? n) && (n <=? 122))%nat.

Definition isQuote (c : ascii) : bool :=
  (nat_of_ascii c =? 34)%nat || (nat_of_ascii c =? 39)%nat.

(** Inside a tag: what follows its closing [>], if it is closed.
    [quote] is the quote character of the attribute value being read. *)
Fixpoint afterTagEnd (quote : option ascii) (s : string) : option string :=
  match s with
  | EmptyString => None
  | String c rest =>
      match quote with
      | Some q => afterTagEnd (if Ascii.eqb c q then None else quote) rest
      | None =>
          if Ascii.eqb c ">"%char then Some rest
          else afterTagEnd (if isQuote c then Some c else None) rest
      end
  end.

(** What follows the tag that starts at the head of [s], if one does. *)
Definition afterTag (s : string) : option string :=
  match s with
  | String lt (String c rest) =>
      if Ascii.eqb lt "<"%char then
        if isLetter c then afterTagEnd None rest
        else if Ascii.eqb c "/"%char then
          match rest with
          | String c' rest' => if isLetter c' then afterTagEnd None rest' else None
          | EmptyString => None
          end
        else None
      else None
  | _ => None
  end.

Lemma afterTagEnd_shorter quote s rest :
  afterTagEnd quote s = Some rest -> (String.length rest < String.length s)%nat.
Proof.
  revert quote. induction s as [|c t IH]; intros quote; simpl; [discriminate|].
  destruct quote as [q|].
  - intros H. apply IH in H. lia.
  - destruct (Ascii.eqb c ">"%char).
    + intros [= <-]. lia.
    + intros H. apply IH in H. lia.
Qed.

Lemma afterTag_shorter s rest :
  afterTag s = Some rest -> (String.length rest < String.length s)%nat.
Proof.
  destruct s as [|lt [|c t]]; simpl; try discriminate.
  destruct (Ascii.eqb lt "<"%char); [|discriminate].
  destruct (isLetter c).
  - intros H. apply afterTagEnd_shorter in H. lia.
  - destruct (Ascii.eqb c "/"%char); [|discriminate].
    destruct t as [|c' t']; [discriminate|].
    destruct (isLetter c'); [|discriminate].
    intros H. apply afterTagEnd_shorter in H. simpl. lia.
Qed.

(** The text without its markup tags. *)
Equations? stripMarkup (s : string) : string by wf (String.length s) lt :=
  stripMarkup EmptyString := EmptyString;
  stripMarkup (String c t) with inspect (afterTag (String c t)) => {
    | exist _ (Some rest) Htag := stripMarkup rest;
    | exist _ None _ := String c (stripMarkup t) }.
Proof.
  - exact (afterTag_shorter _ _ Htag).
  - simpl. lia.
Qed.

Definition deriveTitle (blocks : list ContentBlock.t) : string :=
  TitleText.titleOf
    (stripMarkup <$> (ContentBlock.content <$> TitleText.firstHeading blocks)).

End TitleRule.

(** The rule with the wider notion of tag: every stretch of text from a
    [<] up to and including the next [>], or up to the end of the text
    when no [>] follows. *)
Module TagRunRule.

(** One pass over the text: outside a tag the characters are kept and
    [<] opens a tag; inside a tag they are dropped and [>] closes it. *)
Fixpoint strip (inTag : bool) (s : string) : string :=
  match s with
  | EmptyString => EmptyString
  | String c t =>
      if inTag
      then strip (negb (Ascii.eqb c ">"%char)) t
      else if Ascii.eqb c "<"%char then strip true t
           else String c (strip false t)
  end.

Definition stripMarkup (s : string) : string := strip false s.

Definition deriveTitle (blocks : list ContentBlock.t) : string :=
  TitleText.titleOf
    (stripMarkup <$> (ContentBlock.content <$> TitleText.firstHeading blocks)).

End TagRunRule.

(** ** What the callbacks build

    Names for the values a callback computes from the clock readings of
    the world it runs in, used to state what it queues. *)

(** The id [handleAddPage] gives the page it creates in world [w]. *)
Definition newPageId_at (env : Env) (w : World) : string :=
  "page-" +:+ pretty (clock env (ticks w)).

(** The page [handleAddPage] creates in world [w]. *)
Definition newPage_at (env : Env) (w : World) (blocks : option (list ContentBlock.t))
  : Page.t :=
  {| Page.id := newPageId_at env w;
     Page.title :=
       match blocks ≫= find_H1 with
       | Some h1Block => ContentBlock.content h1Block
       | None => "Untitled"
       end;
     Page.blocks :=
       default (defaultBlocks (clock env (S (ticks w))) (clock env (S (S (ticks w)))))
               blocks |}.

(** The world after three clock readings. *)
Definition tick3 (w : World) : World :=
  {| ticks := S (S (S (ticks w))); localStorage := localStorage w; console := console w |}.

(** The two blocks built once the search has answered in world [w]. *)
Definition resultBlock_at (env : Env) (w : World) (text : string)
  (sources : list Source.t) : ContentBlock.t :=
  {| ContentBlock.id := "search-result-" +:+ pretty (clock env (ticks w));
     ContentBlock.type := BlockType.AI_SEARCH_RESULT;
     ContentBlock.content := text;
     ContentBlock.checked := None; ContentBlock.src := None;
     ContentBlock.language := None;
     ContentBlock.sources := Some sources |}.

Definition promptBlock_at (env : Env) (w : World) (prompt : string) : ContentBlock.t :=
  plain_block ("search-prompt-" +:+ pretty (clock env (S (ticks w))))
              BlockType.QUOTE ("> " +:+ prompt).

(** The world after two clock readings. *)
Definition tick2 (w : World) : World :=
  {| ticks := S (S (ticks w)); localStorage := localStorage w; console := console w |}.

(** Whether character [a] occurs in [s]. *)
Fixpoint has_char (a : ascii) (s : string) : bool :=
  match s with
  | EmptyString => false
  | String c t => Ascii.eqb c a || has_char a t
  end.

(** World [w] with the durable "editor-pages" entry set to [entry], or
    removed. *)
Definition with_pages_entry (w : World) (entry : option string) : World :=
  {| ticks := ticks w;
     localStorage :=
       match entry with
       | Some value => <["editor-pages" := value]> (localStorage w)
       | None => base.delete "editor-pages" (localStorage w)
       end;
     console := console w |}.

(** The theme the load effect selects. *)
Definition loadedTheme (env : Env) (w : World) : Theme :=
  default (if prefersDark env then dark else light)
          (localStorage w !! "editor-theme" ≫= Theme_of_string).

(** [env] with another template catalogue, and with another clock. *)
Definition with_catalogue (env : Env) (catalogue : list PageTemplate.t) : Env :=
  {| clock := clock env; prefersDark := prefersDark env; storageFull := storageFull env;
     JSON_parse := JSON_parse env; JSON_stringify := JSON_stringify env;
     pageTemplates := catalogue;
     generateWithGoogleSearch := generateWithGoogleSearch env |}.

Definition with_clock (env : Env) (readings : nat -> Z) : Env :=
  {| clock := readings; prefersDark := prefersDark env; storageFull := storageFull env;
     JSON_parse := JSON_parse env; JSON_stringify := JSON_stringify env;
     pageTemplates := pageTemplates env;
     generateWithGoogleSearch := generateWithGoogleSearch env |}.

(** ** Sample environments and stores *)

(** A clock that advances by one millisecond per reading, a store that
    takes every write, a search service that is down and no template. *)
Definition env0 : Env :=
  {| clock := fun n => 1700000000000 + Z.of_nat n;
     prefersDark := false;
     storageFull := fun _ _ _ => false;
     JSON_parse := fun _ => None;
     JSON_stringify := fun _ => "{}";
     pageTemplates := [];
     generateWithGoogleSearch := fun _ => Throw "offline" |}.

Definition world0 : World := {| ticks := 0; localStorage := ∅; console := [] |}.

Definition heading (content : string) : ContentBlock.t :=
  plain_block "b1" BlockType.H1 content.
Definition paragraph (content : string) : ContentBlock.t :=
  plain_block "b2" BlockType.P content.

(** A store with one page, selected. *)
Definition st1 : State :=
  {| pages := [ ("page-1", PageValue.Full
                             {| Page.id := "page-1"; Page.title := "Notes";
                                Page.blocks := [heading "Notes"] |}) ];
     currentPageId := Some "page-1"; theme := light;
     isCommandPaletteOpen := false; isAiSearchOpen := false;
     renderError := None |}.

(** A store with two pages, the first one selected. *)
Definition st2 : State :=
  {| pages := [ ("page-1", PageValue.Full
                             {| Page.id := "page-1"; Page.title := "Notes";
                                Page.blocks := [heading "Notes"] |});
                ("page-2", PageValue.Full
                             {| Page.id := "page-2"; Page.title := "Untitled";
                                Page.blocks := [paragraph "text"] |}) ];
     currentPageId := Some "page-1"; theme := dark;
     isCommandPaletteOpen := false; isAiSearchOpen := false;
     renderError := None |}.

Definition citation : Source.t :=
  {| Source.web := {| Source.uri := "http://a"; Source.title := "A" |} |}.

(** As [env0], with a search service that answers. *)
Definition env_search : Env :=
  {| clock := clock env0; prefersDark := false; storageFull := fun _ _ _ => false;
     JSON_parse := fun _ => None; JSON_stringify := fun _ => "{}";
     pageTemplates := [];
     generateWithGoogleSearch := fun _ => Normal ("X is Y.", [citation]) |}.

(** The store after the second page was selected and the first one
    deleted, while a search started on the first one was in flight. *)
Definition st2_without_page1 : State :=
  snd (step env_search (world0, snd (step env_search (world0, st2) (switchPage "page-2")))
            (deletePage "page-1")).

(** A catalogue whose first template is a short welcome page. *)
Definition welcome : PageTemplate.t :=
  {| PageTemplate.id := "welcome"; PageTemplate.name := "Welcome";
     PageTemplate.description := "A first page";
     PageTemplate.blocks := [ plain_block "w1" BlockType.H1 "Getting Started";
                              plain_block "w2" BlockType.P "Type / for commands" ] |}.

Definition env_welcome : Env := with_catalogue env0 [welcome].

Definition ops0 : list StoreOp :=
  [ createPage None; createPage None; switchPage "page-1700000000000";
    deletePage "page-1700000000000"; deletePage "page-1700000000003";
    deletePage "missing" ].

Definition world_saved : World :=
  {| ticks := 0;
     localStorage := {[ "editor-pages" := "{stale}"; "editor-currentPageId" := "page-9" ]};
     console := [] |}.

(** Some page is selected and it is a key of [pages]. *)
Definition page_selected (st : State) : Prop :=
  exists id, currentPageId st = Some id /\ In id (JsObject.keys (pages st)).

(** The title the updater stores, as the code computes it. *)
Definition computed_title (newBlocks : list ContentBlock.t) : string :=
  match find_H1 newBlocks with
  | Some h1Block => JsString.or_else
        (JsString.trim (JsString.replace_tags (ContentBlock.content h1Block)))
        "Untitled"
  | None => "Untitled"
  end.

(** Whether [s] ends with character [a]. *)
Fixpoint ends_with_char (a : ascii) (s : string) : bool :=
  match s with
  | EmptyString => false
  | String c EmptyString => Ascii.eqb c a
  | String _ t => ends_with_char a t
  end.

(** [prev[currentPageId]] as the updater of a search started in render
    [r] finds it when it is applied to the mapping of state [st]. *)
Definition capturedPageValue (r st : State) : JsObject.Lookup PageValue.t :=
  match currentPageId r with
  | Some id => JsObject.read id (pages st)
  | None => JsObject.Missing
  end.

(** The selection the load effect makes for a decoded mapping: the saved
    id when it is non-empty and the mapping reads at it (as a key, or as
    an inherited member), else the first key, else what was selected
    before. *)
Definition restoredSelection (savedCurrentPageId : option string) (parsedPages : Pages)
  (before : option string) : option string :=
  if JsString.truthy savedCurrentPageId
     && from_option (fun id => JsObject.reads id parsedPages) false savedCurrentPageId
  then savedCurrentPageId
  else match JsObject.keys parsedPages with
       | first :: _ => Some first
       | [] => before
       end.

(** An environment whose JSON encoding of the pages of [st2] decodes back
    to them, and whose store takes every write. *)
Definition env_json : Env :=
  {| clock := clock env0; prefersDark := false; storageFull := fun _ _ _ => false;
     JSON_parse := fun s => if String.eqb s "[pages of st2]" then Some (pages st2) else None;
     JSON_stringify := fun _ => "[pages of st2]";
     pageTemplates := [welcome];
     generateWithGoogleSearch := fun _ => Throw "offline" |}.

(** A store that has no room for the pages entry. *)
Definition env_small_store : Env :=
  {| clock := clock env0; prefersDark := false;
     storageFull := fun _ key _ => String.eqb key "editor-pages";
     JSON_parse := fun _ => None; JSON_stringify := fun _ => "{}";
     pageTemplates := [];
     generateWithGoogleSearch := fun _ => Throw "offline" |}.


(** The store [st2] after [switchPage] with the name of a member every
    object inherits. *)
Definition st2_constructor : State :=
  snd (step env0 (world0, st2) (switchPage "constructor")).

(** A clock stuck on one millisecond. *)
Definition env_frozen : Env := with_clock env0 (fun _ => 1700000000000).

(** The store [st2] with the second page selected. *)
Definition st2_second : State :=
  {| pages := pages st2; currentPageId := Some "page-2"; theme := theme st2;
     isCommandPaletteOpen := false; isAiSearchOpen := false;
     renderError := None |}.

(** The store [st2] after [switchPage] with an id that is no key. *)
Definition st2_dangling : State :=
  snd (step env0 (world0, st2) (switchPage "page-7")).

(** A store with no page, nothing selected and the dark theme. *)
Definition st_empty_dark : State :=
  {| pages := []; currentPageId := None; theme := dark;
     isCommandPaletteOpen := false; isAiSearchOpen := false;
     renderError := None |}.

(** A durable store that also holds an entry of another application. *)
Definition world_shared : World :=
  {| ticks := 4;
     localStorage := {[ "other-app" := "settings"; "editor-pages" := "{stale}" ]};
     console := [] |}.

(** The store [st2] with the command palette open. *)
Definition st2_palette : State :=
  {| pages := pages st2; currentPageId := currentPageId st2; theme := theme st2;
     isCommandPaletteOpen := true; isAiSearchOpen := false;
     renderError := None |}.

(** * Properties *)

(** ** Objects *)

Module JsObjectFacts.
Import JsObject.
Section Facts.
Context {V : Type}.
Implicit Types (o : JsObject.t V) (k : string) (v : V).

Lemma get_overwrite_eq k v o :
  is_Some (get k o) -> get k (overwrite k v o) = Some v.
Proof.
  induction o as [|[k' v'] r IH]; simpl; intros H.
  - by destruct H.
  - destruct (String.eqb_spec k' k) as [->|Hne]; simpl.
    + by rewrite String.eqb_refl.
    + destruct (String.eqb_spec k' k); [done|]. by apply IH.
Qed.

Lemma get_overwrite_ne k k' v o :
  k <> k' -> get k' (overwrite k v o) = get k' o.
Proof.
  intros Hne. induction o as [|[k0 v0] r IH]; simpl; [done|].
  destruct (String.eqb_spec k0 k) as [->|Hk]; simpl.
  - destruct (String.eqb_spec k k'); [done|done].
  - by rewrite IH.
Qed.

Lemma get_place_index_eq n k v o :
  get k (place_index n k v o) = Some v \/ is_Some (get k o).
Proof.
  induction o as [|[k0 v0] r IH]; simpl.
  - left. by rewrite String.eqb_refl.
  - destruct (array_index k0) as [m|].
    + destruct (n <? m)%N; simpl.
      * left. by rewrite String.eqb_refl.
      * destruct (String.eqb_spec k0 k); [right; eauto|exact IH].
    + left. simpl. by rewrite String.eqb_refl.
Qed.

Lemma get_place_index_ne n k k' v o :
  k <> k' -> get k' (place_index n k v o) = get k' o.
Proof.
  intros Hne. induction o as [|[k0 v0] r IH]; simpl.
  - by destruct (String.eqb_spec k k').
  - destruct (array_index k0) as [m|].
    + destruct (n <? m)%N; simpl.
      * by destruct (String.eqb_spec k k').
      * by rewrite IH.
    + simpl. by destruct (String.eqb_spec k k').
Qed.

Lemma get_app k o o' :
  get k (o ++ o')%list = match get k o with Some v => Some v | None => get k o' end.
Proof.
  induction o as [|[k0 v0] r IH]; simpl; [done|].
  by destruct (String.eqb k0 k).
Qed.

(** Reading back the property just written. *)
Lemma get_set_eq k v o : get k (set k v o) = Some v.
Proof.
  unfold set. destruct (get k o) as [v0|] eqn:Hg.
  - apply get_overwrite_eq. by rewrite Hg.
  - destruct (array_index k) as [n|].
    + destruct (get_place_index_eq n k v o) as [H|[x H]]; [done|congruence].
    + rewrite get_app, Hg. simpl. by rewrite String.eqb_refl.
Qed.

(** The other properties are untouched. *)
Lemma get_set_ne k k' v o : k <> k' -> get k' (set k v o) = get k' o.
Proof.
  intros Hne. unfold set. destruct (get k o) as [v0|].
  - by apply get_overwrite_ne.
  - destruct (array_index k) as [n|].
    + by apply get_place_index_ne.
    + rewrite get_app. simpl.
      destruct (String.eqb_spec k k'); [done|]. by destruct (get k' o).
Qed.

Lemma get_delete_eq k o : get k (delete k o) = None.
Proof.
  induction o as [|[k0 v0] r IH]; simpl; [done|].
  destruct (String.eqb_spec k0 k); simpl; [done|].
  by destruct (String.eqb_spec k0 k).
Qed.

Lemma get_delete_ne k k' o : k <> k' -> get k' (delete k o) = get k' o.
Proof.
  intros Hne. induction o as [|[k0 v0] r IH]; simpl; [done|].
  destruct (String.eqb_spec k0 k) as [->|Hk]; simpl.
  - by destruct (String.eqb_spec k k').
  - by rewrite IH.
Qed.

(** [Object.keys] lists exactly the readable properties. *)
Lemma in_keys k o : In k (keys o) <-> is_Some (get k o).
Proof.
  induction o as [|[k0 v0] r IH]; simpl.
  - split; [done|]. by intros [? ?].
  - destruct (String.eqb_spec k0 k) as [->|Hk].
    + split; eauto.
    + rewrite <- IH. split; [|by right]. by intros [?|?].
Qed.

Lemma keys_delete k o :
  keys (delete k o) = List.filter (fun id => negb (String.eqb id k)) (keys o).
Proof.
  induction o as [|[k0 v0] r IH]; simpl; [done|].
  destruct (String.eqb k0 k); simpl; by rewrite IH.
Qed.

Lemma delete_only k o : keys o = [k] -> delete k o = [].
Proof.
  destruct o as [|[k0 v0] [|]]; simpl; try done.
  intros [= ->]. by rewrite String.eqb_refl.
Qed.
End Facts.
End JsObjectFacts.

(** ** What the callbacks queue *)

Lemma handleAddPage_run blocks env w :
  handleAddPage blocks env w =
  {| completion := Normal tt;
     queued := [ setPages (returning (JsObject.set (newPageId_at env w)
                                        (PageValue.Full (newPage_at env w blocks))));
                 setCurrentPageId (Some (newPageId_at env w)) ];
     world := tick3 w |}.
Proof.
  unfold handleAddPage, newPage_at, newPageId_at, tick3.
  destruct blocks as [blocks|]; simpl; [destruct (find_H1 blocks)|]; reflexivity.
Qed.

Lemma handleSwitchPage_run pageId env w :
  handleSwitchPage pageId env w =
  {| completion := Normal tt;
     queued := [ setCurrentPageId (Some pageId); setCommandPaletteOpen (fun _ => false) ];
     world := w |}.
Proof. reflexivity. Qed.

(** ** The selection invariant (C1) *)

Section Selection.
Import JsObject JsObjectFacts.
Variable env : Env.
Variable blank : option string -> Prop.

Lemma resolves_key st id :
  currentPageId st = Some id -> is_Some (get id (pages st)) -> resolves_unless blank st.
Proof. intros Hc Hg. right. exists id. split; [done|]. by apply in_keys. Qed.

Lemma createPage_resolves w st blocks :
  resolves_unless blank (snd (step env (w, st) (createPage blocks))).
Proof.
  unfold step. cbn [callback fst snd]. rewrite handleAddPage_run. simpl.
  eapply resolves_key; [done|]. simpl. rewrite get_set_eq. eauto.
Qed.

Lemma switchPage_resolves w st id :
  has id (pages st) = true ->
  resolves_unless blank (snd (step env (w, st) (switchPage id))).
Proof.
  intros Hhas. unfold step; simpl.
  eapply resolves_key; [done|]. simpl.
  unfold has in Hhas. destruct (get id (pages st)); [eauto|done].
Qed.

(** Deleting the selected page moves the selection to a remaining key or
    to a new page; deleting another page leaves the selected key in. *)
Lemma deletePage_resolves w st id :
  resolves_unless blank st ->
  resolves_unless blank (snd (step env (w, st) (deletePage id))).
Proof.
  intros Hinv. unfold step. cbn [callback fst snd].
  unfold handleDeletePage, mbind, Handler_bind. cbn [call completion queued world].
  case_bool_decide as Hcur.
  - destruct (List.filter _ (keys (pages st))) as [|first rest] eqn:Hrem.
    + rewrite handleAddPage_run. simpl.
      eapply resolves_key; [done|]. simpl. rewrite get_set_eq. eauto.
    + simpl. right. exists first. split; [done|]. simpl.
      rewrite keys_delete, Hrem. by left.
  - simpl. destruct Hinv as [Hempty|(c & Hc & Hin)]; [by left|].
    right. exists c. split; [done|]. simpl.
    apply in_keys. rewrite get_delete_ne; [by apply in_keys|].
    intros ->. by apply Hcur.
Qed.

Lemma step_resolves s op :
  resolves_unless blank (snd s) ->
  match op with switchPage id => has id (pages (snd s)) = true | _ => True end ->
  resolves_unless blank (snd (step env s op)).
Proof.
  destruct s as [w st]. intros Hinv Hguard. destruct op.
  - apply createPage_resolves.
  - by apply deletePage_resolves.
  - by apply switchPage_resolves.
Qed.
End Selection.

(** C1, as amended: along every sequence of [createPage], [deletePage] and
    [switchPage] operations whose [switchPage] calls name pages that exist
    at the time of the call, and that starts where [currentPageId] is
    empty or a key of [pages], [currentPageId] is empty or a key of
    [pages] after each single operation.  This holds whichever values
    count as empty ([blank]): [null] alone, or [null] and the empty
    string. *)
Theorem selection_invariant
  (env : Env) (blank : option string -> Prop) (ops : list StoreOp) (s : World * State) :
  resolves_unless blank (snd s) ->
  switches_to_existing env s ops = true ->
  Forall (fun s' => resolves_unless blank (snd s')) (trace env s ops).
Proof.
  revert s. induction ops as [|op ops IH]; intros s Hinv Hguard; simpl.
  - constructor.
  - simpl in Hguard. apply andb_prop in Hguard as [Hop Hrest].
    assert (resolves_unless blank (snd (step env s op))) as Hnext.
    { apply step_resolves; [done|]. by destruct op. }
    constructor; [done|]. by apply IH.
Qed.

Lemma selection_invariant_witness :
  Forall (fun s' => resolves_unless is_null (snd s'))
         (trace env0 (world0, initialState) ops0).
Proof.
  apply selection_invariant.
  - left. reflexivity.
  - vm_compute. reflexivity.
Defined.

(** C1 as stated fails: [switchPage] stores the id it is given without
    looking it up, so an id that is no key of [pages] becomes the
    selection.  The start state has no selection at all, and the state
    after the call has one that is neither [null] nor the empty string
    nor a key. *)
Lemma switchPage_dangling :
  resolves_unless is_null initialState /\
  ~ Forall (fun s' => resolves_unless is_falsy (snd s'))
      (trace env0 (world0, initialState) [switchPage "page-0"]).
Proof.
  split; [by left|].
  intros H. apply Forall_cons in H as [[Hempty|(id & Hid & Hin)] _].
  - discriminate Hempty.
  - simpl in Hin. destruct Hin.
Qed.

(** ** Tag stripping: the pattern against the title rule *)

Section Stripping.
Import JsString TagRunRule.

Lemma strip_in_tag t : strip true t = strip false (skip_opt_gt (skip_not_gt t)).
Proof.
  induction t as [|c r IH]; [reflexivity|].
  cbn [strip skip_not_gt]. unfold gt_sign.
  destruct (Ascii.eqb c ">"%char) eqn:Hc; simpl.
  - unfold gt_sign. by rewrite Hc.
  - exact IH.
Qed.

Lemma strip_match s rest :
  match_tag s = Some rest -> strip false s = strip false rest.
Proof.
  destruct s as [|c t]; simpl; [discriminate|]. unfold lt_sign.
  destruct (Ascii.eqb c "<"%char); [|discriminate].
  intros [= <-]. apply strip_in_tag.
Qed.

Lemma strip_no_match c t :
  match_tag (String c t) = None ->
  strip false (String c t) = String c (strip false t).
Proof. simpl. unfold lt_sign. by destruct (Ascii.eqb c "<"%char). Qed.

(** The global replacement by the pattern is the one-pass stripper. *)
Lemma replace_tags_stripMarkup s : replace_tags s = stripMarkup s.
Proof.
  unfold stripMarkup.
  funelim (replace_tags s); simp replace_tags; try reflexivity.
  - rewrite (strip_match _ _ Hm). assumption.
  - match goal with
    | IH : replace_tags t = _, E : match_tag _ = None |- _ =>
        rewrite (strip_no_match _ _ E); by rewrite IH
    end.
Qed.

(** Text without [<] is left as it is. *)
Lemma stripMarkup_plain s : has_char lt_sign s = false -> stripMarkup s = s.
Proof.
  unfold stripMarkup, lt_sign. induction s as [|c t IH]; simpl; [done|].
  destruct (Ascii.eqb c "<"%char); simpl; [done|].
  intros H. by rewrite IH.
Qed.

Lemma strip_tag_body body post :
  has_char gt_sign body = false ->
  strip true (body +:+ String gt_sign post) = strip false post.
Proof.
  unfold gt_sign. induction body as [|c t IH]; simpl.
  - intros _. reflexivity.
  - destruct (Ascii.eqb c ">"%char); simpl; [done|]. exact IH.
Qed.

(** A closed tag is removed whole and nothing around it is. *)
Lemma stripMarkup_tag pre body post :
  has_char lt_sign pre = false ->
  has_char gt_sign body = false ->
  stripMarkup (pre +:+ String lt_sign (body +:+ String gt_sign post))
  = pre +:+ stripMarkup post.
Proof.
  unfold stripMarkup. intros Hpre Hbody.
  induction pre as [|c t IH]; simpl.
  - by apply strip_tag_body.
  - simpl in Hpre. unfold lt_sign in Hpre |- * at 1.
    destruct (Ascii.eqb c "<"%char); simpl in *; [done|].
    by rewrite IH.
Qed.

(** No [<] survives. *)
Lemma strip_no_lt b s : has_char lt_sign (strip b s) = false.
Proof.
  unfold lt_sign. revert b. induction s as [|c t IH]; intros b; simpl; [done|].
  destruct b; [apply IH|].
  destruct (Ascii.eqb c "<"%char) eqn:Hc; [apply IH|].
  simpl. by rewrite Hc, IH.
Qed.
End Stripping.

Section TrimFacts.
Import JsString.

Lemma trimStart_idempotent s : trimStart (trimStart s) = trimStart s.
Proof.
  induction s as [|c t IH]; simpl; [done|].
  destruct (isWhiteSpace c) eqn:Hc; [done|]. simpl. by rewrite Hc.
Qed.

Lemma trimEnd_idempotent s : trimEnd (trimEnd s) = trimEnd s.
Proof.
  induction s as [|c t IH]; simpl; [done|].
  destruct (trimEnd t) as [|c' r] eqn:Ht.
  - destruct (isWhiteSpace c) eqn:Hc; simpl; [done|]. by rewrite Hc.
  - cbn [trimEnd] in IH |- *. by rewrite IH.
Qed.

(** Trimming the two ends in either order gives the same text. *)
Lemma trimEnd_trimStart s : trimEnd (trimStart s) = trimStart (trimEnd s).
Proof.
  induction s as [|c t IH]; simpl; [done|].
  destruct (isWhiteSpace c) eqn:Hc.
  - rewrite IH. destruct (trimEnd t) as [|c' r]; simpl; by rewrite ?Hc.
  - cbn [trimEnd]. destruct (trimEnd t) as [|c' r]; simpl; by rewrite Hc.
Qed.

Lemma trim_idempotent s : trim (trim s) = trim s.
Proof.
  unfold trim.
  by rewrite <- trimEnd_trimStart, trimStart_idempotent, trimEnd_trimStart,
    trimEnd_idempotent.
Qed.

Lemma trimStart_has_char a s : has_char a s = false -> has_char a (trimStart s) = false.
Proof.
  induction s as [|c t IH]; simpl; [done|].
  intros H. apply orb_false_elim in H as [Hc Ht].
  destruct (isWhiteSpace c); [by apply IH|]. simpl. by rewrite Hc, Ht.
Qed.

Lemma trimEnd_has_char a s : has_char a s = false -> has_char a (trimEnd s) = false.
Proof.
  induction s as [|c t IH]; simpl; [done|].
  intros H. apply orb_false_elim in H as [Hc Ht]. specialize (IH Ht).
  destruct (trimEnd t) as [|c' r].
  - destruct (isWhiteSpace c); simpl; [done|]. by rewrite Hc.
  - cbn [has_char] in IH |- *. by rewrite Hc, IH.
Qed.

Lemma trim_has_char a s : has_char a s = false -> has_char a (trim s) = false.
Proof. intros H. unfold trim. by apply trimStart_has_char, trimEnd_has_char. Qed.

(** What the title computation leaves is never empty, holds no [<], has
    nothing left to trim, and is its own title. *)
Lemma computed_title_normal content :
  let title := or_else (trim (replace_tags content)) "Untitled" in
  title <> "" /\ has_char lt_sign title = false /\ trim title = title /\
  or_else (trim (replace_tags title)) "Untitled" = title.
Proof.
  cbv zeta.
  assert (has_char lt_sign (trim (replace_tags content)) = false) as Hlt.
  { apply trim_has_char. rewrite replace_tags_stripMarkup. apply strip_no_lt. }
  destruct (trim (replace_tags content)) as [|c t] eqn:Ht; [by vm_compute|].
  cbn [or_else]. split; [done|]. split; [done|].
  assert (trim (String c t) = String c t) as Htrim.
  { rewrite <- Ht. apply trim_idempotent. }
  split; [done|].
  rewrite replace_tags_stripMarkup, stripMarkup_plain by done. by rewrite Htrim.
Qed.
End TrimFacts.

(** ** The code's text functions against the title rule *)

Section TitleTextFacts.
Import JsString.

Lemma isSpace_isWhiteSpace c : TitleText.isSpace c = isWhiteSpace c.
Proof. by destruct c as [[] [] [] [] [] [] [] []]. Qed.

Lemma skipSpaces_trimStart s :
  String.list_ascii_of_string (trimStart s)
  = TitleText.skipSpaces (String.list_ascii_of_string s).
Proof.
  induction s as [|c t IH]; simpl; [done|].
  rewrite isSpace_isWhiteSpace. by destruct (isWhiteSpace c).
Qed.

Lemma skipSpaces_snoc l c :
  TitleText.skipSpaces (l ++ [c])%list =
  match TitleText.skipSpaces l with
  | [] => if TitleText.isSpace c then [] else [c]
  | rest => (rest ++ [c])%list
  end.
Proof.
  induction l as [|a l IH]; simpl; [done|].
  destruct (TitleText.isSpace a); [exact IH|done].
Qed.

Lemma skipSpaces_trimEnd s :
  String.list_ascii_of_string (trimEnd s)
  = List.rev (TitleText.skipSpaces (List.rev (String.list_ascii_of_string s))).
Proof.
  induction s as [|c t IH]; simpl; [done|].
  rewrite skipSpaces_snoc, isSpace_isWhiteSpace.
  destruct (TitleText.skipSpaces (List.rev (String.list_ascii_of_string t)))
    as [|a rest] eqn:Hskip; simpl in IH.
  - destruct (trimEnd t); [|discriminate IH]. by destruct (isWhiteSpace c).
  - rewrite List.rev_app_distr. simpl. rewrite <- IH.
    destruct (trimEnd t) as [|a' t'] eqn:Ht; [|done].
    simpl in IH. by destruct (List.rev rest).
Qed.

(** [String.prototype.trim], as modelled, removes the white space at the
    two ends and nothing else. *)
Lemma trim_rule s : trim s = TitleText.trim s.
Proof.
  unfold TitleText.trim.
  rewrite <- skipSpaces_trimStart, <- skipSpaces_trimEnd.
  rewrite String.string_of_list_ascii_of_string.
  unfold trim. symmetry. apply trimEnd_trimStart.
Qed.

(** [blocks.find(b => b.type === BlockType.H1)] is the first heading-1
    block. *)
Lemma find_H1_firstHeading blocks : find_H1 blocks = TitleText.firstHeading blocks.
Proof.
  induction blocks as [|block rest IH]; simpl; [done|].
  unfold find_H1 in IH |- *. simpl.
  destruct (ContentBlock.type block); simpl; by rewrite ?IH.
Qed.

(** The title the updater computes is the title of the rule with the
    wider notion of tag. *)
Lemma computed_title_rule newBlocks :
  computed_title newBlocks = TagRunRule.deriveTitle newBlocks.
Proof.
  unfold computed_title, TagRunRule.deriveTitle.
  rewrite find_H1_firstHeading.
  destruct (TitleText.firstHeading newBlocks) as [h1Block|]; [|done]. simpl.
  rewrite replace_tags_stripMarkup, trim_rule.
  by destruct (TitleText.trim (TagRunRule.stripMarkup (ContentBlock.content h1Block))).
Qed.
End TitleTextFacts.

(** ** Editing the current page (C2, C10) *)

Section Editing.
Import JsObject JsObjectFacts JsString.

Lemma read_get k (o : Pages) v : get k o = Some v -> read k o = Own v.
Proof. intros Hg. unfold read. by rewrite Hg. Qed.

Lemma read_Own k (o : Pages) v : read k o = Own v -> get k o = Some v.
Proof.
  unfold read. destruct (get k o); [by intros [= ->]|].
  by destruct (inherited_name k).
Qed.

Lemma read_Missing k (o : Pages) :
  read k o = Missing -> get k o = None /\ inherited_name k = false.
Proof.
  unfold read. destruct (get k o); [done|]. by destruct (inherited_name k).
Qed.

(** What the updater does, by what [prev[currentPageId]] is. *)
Lemma replaceBlocks_read id newBlocks prev :
  replaceBlocks id newBlocks prev =
  match read id prev with
  | Own value =>
      set id (PageValue.with_blocks_title value newBlocks (computed_title newBlocks)) prev
  | Inherited => set id (PageValue.NoId (computed_title newBlocks) newBlocks) prev
  | Missing => prev
  end.
Proof.
  unfold replaceBlocks, computed_title.
  destruct (read id prev); by destruct (find_H1 newBlocks).
Qed.

Lemma replaceBlocks_get id newBlocks prev value :
  get id prev = Some value ->
  get id (replaceBlocks id newBlocks prev)
  = Some (PageValue.with_blocks_title value newBlocks (computed_title newBlocks)).
Proof.
  intros Hg. rewrite replaceBlocks_read, (read_get _ _ _ Hg). apply get_set_eq.
Qed.

Lemma replaceBlocks_get_ne id k newBlocks prev :
  id <> k -> get k (replaceBlocks id newBlocks prev) = get k prev.
Proof.
  intros Hne. rewrite replaceBlocks_read.
  destruct (read id prev); try done; by apply get_set_ne.
Qed.

Lemma currentPage_Some st page :
  currentPage st = Some page ->
  exists id, currentPageId st = Some id /\ id <> "" /\
             get id (pages st) = Some (PageValue.Full page).
Proof.
  unfold currentPage, currentPageValue.
  destruct (currentPageId st) as [[|c id]|]; try done.
  destruct (read (String c id) (pages st)) as [[p|title blocks]| |] eqn:Hread; try done.
  intros [= ->]. exists (String c id). repeat split; [done|]. by apply read_Own.
Qed.

Lemma currentPage_get st id page :
  currentPageId st = Some id -> id <> "" ->
  get id (pages st) = Some (PageValue.Full page) ->
  currentPage st = Some page.
Proof.
  intros Hid Hne Hg. unfold currentPage, currentPageValue. rewrite Hid.
  destruct id as [|c id]; [done|]. by rewrite (read_get _ _ _ Hg).
Qed.

(** The state after [updateBlocksForCurrentPage] from a render with a
    non-empty selection. *)
Lemma updateBlocks_state env w st newBlocks id :
  currentPageId st = Some id -> id <> "" ->
  state_after (updateBlocksForCurrentPage st newBlocks) env w st
  = {| pages := replaceBlocks id newBlocks (pages st);
       currentPageId := currentPageId st;
       theme := theme st;
       isCommandPaletteOpen := isCommandPaletteOpen st;
       isAiSearchOpen := isAiSearchOpen st;
       renderError := renderError st |}.
Proof.
  intros Hid Hne. unfold state_after, updateBlocksForCurrentPage. rewrite Hid.
  destruct id as [|c id]; [done|]. simpl. by rewrite Hid.
Qed.

(** The state after [updateBlocksForCurrentPage] from a render with an
    empty selection. *)
Lemma updateBlocks_state_empty env w st newBlocks :
  truthy (currentPageId st) = false ->
  state_after (updateBlocksForCurrentPage st newBlocks) env w st = st.
Proof.
  intros Hfalsy. unfold state_after, updateBlocksForCurrentPage.
  destruct (currentPageId st) as [[|c id]|]; try done; by destruct st.
Qed.
End Editing.

(** C2, as amended: when there is a current page,
    [updateBlocksForCurrentPage] leaves it with exactly the blocks it was
    given and with, as title, the content of the first heading-1 block
    from which every stretch from a [<] up to and including the next [>]
    (or up to the end of the text when no [>] follows) is removed and the
    white space at both ends trimmed — or "Untitled" when there is no
    heading-1 block or nothing is left of its content. *)
Theorem updateBlocks_sets_blocks_and_title
  (env : Env) (w : World) (st : State) (newBlocks : list ContentBlock.t) (page : Page.t) :
  currentPage st = Some page ->
  currentPage (state_after (updateBlocksForCurrentPage st newBlocks) env w st)
  = Some {| Page.id := Page.id page;
            Page.title := TagRunRule.deriveTitle newBlocks;
            Page.blocks := newBlocks |}.
Proof.
  intros Hcur. apply currentPage_Some in Hcur as (id & Hid & Hne & Hg).
  rewrite (updateBlocks_state env w st newBlocks id Hid Hne).
  apply (currentPage_get _ id); [done|done|]. simpl.
  rewrite (replaceBlocks_get _ _ _ _ Hg). simpl.
  by rewrite computed_title_rule.
Qed.

Lemma updateBlocks_sets_blocks_and_title_witness :
  currentPage
    (state_after
       (updateBlocksForCurrentPage st2
          [paragraph "intro"; heading "  Hello <b>World</b> <br"; heading "Second"])
       env0 world0 st2)
  = Some {| Page.id := "page-1"; Page.title := "Hello World";
            Page.blocks := [paragraph "intro"; heading "  Hello <b>World</b> <br";
                            heading "Second"] |}.
Proof.
  exact (updateBlocks_sets_blocks_and_title env0 world0 st2
           [paragraph "intro"; heading "  Hello <b>World</b> <br"; heading "Second"]
           {| Page.id := "page-1"; Page.title := "Notes"; Page.blocks := [heading "Notes"] |}
           eq_refl).
Defined.

(** C2 as stated fails: what the code removes is not the markup tags.  A
    [<] that opens no tag takes the rest of the text with it, and a tag
    with a [>] inside a quoted attribute value is cut at that [>]. *)
Lemma updateBlocks_title_not_markup_rule :
  (Page.title <$> currentPage (state_after (updateBlocksForCurrentPage st2 [heading "1 < 2"])
                                           env0 world0 st2)
   = Some "1" /\
   TitleRule.deriveTitle [heading "1 < 2"] = "1 < 2") /\
  (Page.title <$> currentPage (state_after
                                 (updateBlocksForCurrentPage st2
                                    [heading "<span title='a>b'>Plan</span>"])
                                 env0 world0 st2)
   = Some "b'>Plan" /\
   TitleRule.deriveTitle [heading "<span title='a>b'>Plan</span>"] = "Plan").
Proof. repeat split; reflexivity. Qed.

Example deriveTitle_no_heading : TitleRule.deriveTitle [paragraph "Hello"] = "Untitled".
Proof. reflexivity. Qed.
Example deriveTitle_only_tags : TitleRule.deriveTitle [heading " <br> "] = "Untitled".
Proof. reflexivity. Qed.
Example deriveTitle_first_heading :
  TitleRule.deriveTitle [heading "  A <i>b</i> "; heading "C"] = "A b".
Proof. reflexivity. Qed.
Example deriveTitle_tag_runs :
  TagRunRule.deriveTitle [heading "x > y <i>z</i> <"] = "x > y z".
Proof. reflexivity. Qed.

(** C10: [updateBlocksForCurrentPage] touches nothing but the entry of
    the current page: every other key reads as before, the id of the
    current page is the same, and so are the theme and the selection. *)
Theorem updateBlocks_frame
  (env : Env) (w : World) (st : State) (newBlocks : list ContentBlock.t) (k : string) :
  currentPageId st <> Some k ->
  let st' := state_after (updateBlocksForCurrentPage st newBlocks) env w st in
  JsObject.get k (pages st') = JsObject.get k (pages st) /\
  Page.id <$> currentPage st' = Page.id <$> currentPage st /\
  theme st' = theme st /\
  currentPageId st' = currentPageId st.
Proof.
  intros Hk. cbv zeta.
  destruct (JsString.truthy (currentPageId st)) eqn:Htruthy.
  2: { by rewrite updateBlocks_state_empty. }
  destruct (currentPageId st) as [[|c id]|] eqn:Hid; try done.
  rewrite (updateBlocks_state env w st newBlocks (String c id)) by done.
  unfold currentPage, currentPageValue. simpl. rewrite Hid.
  split; [apply replaceBlocks_get_ne; congruence|]. split; [|done].
  destruct (JsObject.read (String c id) (pages st)) as [value| |] eqn:Hread;
    rewrite replaceBlocks_read, Hread.
  - rewrite (read_get _ _ _ (JsObjectFacts.get_set_eq _ _ _)). by destruct value.
  - by rewrite (read_get _ _ _ (JsObjectFacts.get_set_eq _ _ _)).
  - by rewrite Hread.
Qed.

Lemma updateBlocks_frame_witness :
  let st' := state_after (updateBlocksForCurrentPage st2 [heading "New"]) env0 world0 st2 in
  JsObject.get "page-2" (pages st') = JsObject.get "page-2" (pages st2) /\
  Page.id <$> currentPage st' = Page.id <$> currentPage st2 /\
  theme st' = theme st2 /\
  currentPageId st' = currentPageId st2.
Proof.
  apply (updateBlocks_frame env0 world0 st2 [heading "New"] "page-2").
  discriminate.
Defined.

(** ** Merging a search result (C3, C4, C8) *)

Section AiSearch.
Import JsObject JsObjectFacts.

Lemma handleAiSearch_fulfilled env w r prompt id text sources :
  currentPageId r = Some id -> id <> "" ->
  generateWithGoogleSearch env prompt = Normal (text, sources) ->
  handleAiSearch r prompt env w =
  {| completion := Normal tt;
     queued := [ setPages (appendAiResult id (promptBlock_at env w prompt)
                                          (resultBlock_at env w text sources)) ];
     world := tick2 w |}.
Proof.
  intros Hid Hne Hgen. unfold handleAiSearch. rewrite Hid.
  destruct id as [|c id]; [done|].
  unfold mbind, Handler_bind, await. simpl. rewrite Hgen. reflexivity.
Qed.

Lemma handleAiSearch_rejected env w r prompt error :
  generateWithGoogleSearch env prompt = Throw error ->
  handleAiSearch r prompt env w =
  {| completion := if JsString.truthy (currentPageId r) then Throw error else Normal tt;
     queued := [];
     world := w |}.
Proof.
  intros Hgen. unfold handleAiSearch.
  destruct (currentPageId r) as [[|c id]|]; try reflexivity.
  unfold mbind, Handler_bind, await. simpl. rewrite Hgen. reflexivity.
Qed.

Lemma appendAiResult_missing id promptBlock resultBlock prev :
  read id prev = Missing -> appendAiResult id promptBlock resultBlock prev = Normal prev.
Proof. intros Hread. unfold appendAiResult. by rewrite Hread. Qed.

Lemma appendAiResult_own id promptBlock resultBlock prev value :
  get id prev = Some value ->
  appendAiResult id promptBlock resultBlock prev
  = Normal (set id (PageValue.with_blocks value
                      (PageValue.blocks value ++ [promptBlock; resultBlock])%list) prev).
Proof. intros Hg. unfold appendAiResult, read. by rewrite Hg. Qed.

Lemma appendAiResult_inherited id promptBlock resultBlock prev :
  read id prev = Inherited ->
  appendAiResult id promptBlock resultBlock prev = Throw "TypeError".
Proof. intros Hread. unfold appendAiResult. by rewrite Hread. Qed.
End AiSearch.

(** C3: when the search started on page [id] answers with [text] and
    [sources] and the page is still there with [N] blocks, the page ends
    with [N + 2] blocks: the [N] old ones, unchanged and in order, then a
    quote block with content "> " followed by the prompt, then an
    ai-search-result block with content [text] and sources [sources]. *)
Theorem aiSearch_appends_two_blocks
  (env : Env) (w : World) (r st : State) (prompt text : string)
  (sources : list Source.t) (id : string) (page : Page.t) :
  currentPageId r = Some id -> id <> "" ->
  generateWithGoogleSearch env prompt = Normal (text, sources) ->
  JsObject.get id (pages st) = Some (PageValue.Full page) ->
  exists (page' : Page.t) promptBlock resultBlock,
    JsObject.get id (pages (state_after (handleAiSearch r prompt) env w st))
    = Some (PageValue.Full page') /\
    Page.blocks page' = (Page.blocks page ++ [promptBlock; resultBlock])%list /\
    length (Page.blocks page') = (length (Page.blocks page) + 2)%nat /\
    take (length (Page.blocks page)) (Page.blocks page') = Page.blocks page /\
    Page.blocks page' !! length (Page.blocks page) = Some promptBlock /\
    Page.blocks page' !! S (length (Page.blocks page)) = Some resultBlock /\
    ContentBlock.type promptBlock = BlockType.QUOTE /\
    ContentBlock.content promptBlock = "> " +:+ prompt /\
    ContentBlock.type resultBlock = BlockType.AI_SEARCH_RESULT /\
    ContentBlock.content resultBlock = text /\
    ContentBlock.sources resultBlock = Some sources.
Proof.
  intros Hid Hne Hgen Hg.
  unfold state_after. rewrite (handleAiSearch_fulfilled _ _ _ _ _ _ _ Hid Hne Hgen).
  simpl. rewrite (appendAiResult_own _ _ _ _ _ Hg). simpl.
  eexists _, (promptBlock_at env w prompt), (resultBlock_at env w text sources).
  split; [apply JsObjectFacts.get_set_eq|]. simpl.
  split; [reflexivity|].
  split; [rewrite length_app; simpl; lia|].
  split; [by rewrite take_app_length|].
  split; [by rewrite lookup_app_r, Nat.sub_diag by lia|].
  split; [|done].
  rewrite lookup_app_r by lia.
  by replace (S (length (Page.blocks page)) - length (Page.blocks page))%nat with 1%nat by lia.
Qed.

Lemma aiSearch_appends_two_blocks_witness :
  exists (page' : Page.t) promptBlock resultBlock,
    JsObject.get "page-1"
      (pages (state_after (handleAiSearch st2 "what is X?") env_search world0 st2))
    = Some (PageValue.Full page') /\
    Page.blocks page' = [heading "Notes"; promptBlock; resultBlock] /\
    length (Page.blocks page') = 3%nat /\
    take 1 (Page.blocks page') = [heading "Notes"] /\
    Page.blocks page' !! 1%nat = Some promptBlock /\
    Page.blocks page' !! 2%nat = Some resultBlock /\
    ContentBlock.type promptBlock = BlockType.QUOTE /\
    ContentBlock.content promptBlock = "> what is X?" /\
    ContentBlock.type resultBlock = BlockType.AI_SEARCH_RESULT /\
    ContentBlock.content resultBlock = "X is Y." /\
    ContentBlock.sources resultBlock = Some [citation].
Proof.
  apply (aiSearch_appends_two_blocks env_search world0 st2 st2 "what is X?" "X is Y."
           [citation] "page-1"
           {| Page.id := "page-1"; Page.title := "Notes"; Page.blocks := [heading "Notes"] |}
           eq_refl); [discriminate|reflexivity|reflexivity].
Defined.

(** C4: when the external search call rejects, the store is left exactly
    as it was — no block is appended, no page is touched, the selection
    is the same — and the rejection reaches the caller. *)
Theorem aiSearch_rejected_leaves_store
  (env : Env) (w : World) (r st : State) (prompt error : string) :
  generateWithGoogleSearch env prompt = Throw error ->
  dispatch (handleAiSearch r prompt) env w st
  = (if JsString.truthy (currentPageId r) then Throw error else Normal tt, w, st).
Proof.
  intros Hgen. unfold dispatch.
  by rewrite (handleAiSearch_rejected _ _ _ _ _ Hgen).
Qed.

Lemma aiSearch_rejected_leaves_store_witness :
  dispatch (handleAiSearch st2 "what is X?") env0 world0 st2
  = (Throw "offline", world0, st2).
Proof.
  exact (aiSearch_rejected_leaves_store env0 world0 st2 st2 "what is X?" "offline" eq_refl).
Defined.


(** ** Creating and deleting pages (C5, C6) *)

Section CreateDelete.
Import JsObject JsObjectFacts.

Lemma set_nil {V} k (v : V) : set k v [] = [(k, v)].
Proof. unfold set. simpl. by destruct (array_index k). Qed.

Lemma filter_only {V} k (o : JsObject.t V) :
  keys o = [k] ->
  List.filter (fun id => negb (String.eqb id k)) (keys o) = @nil string.
Proof. intros ->. simpl. by rewrite String.eqb_refl. Qed.
End CreateDelete.

(** C5: deleting the only page while it is selected leaves exactly one
    page, the default one [handleAddPage] creates when called without
    blocks (title "Untitled", a heading-1 block "Untitled" and an empty
    paragraph), and selects it. *)
Theorem delete_last_page (env : Env) (w : World) (st : State) (k : string) :
  JsObject.keys (pages st) = [k] ->
  currentPageId st = Some k ->
  let st' := snd (step env (w, st) (deletePage k)) in
  let id := "page-" +:+ pretty (clock env (ticks w)) in
  pages st' =
    [ (id, PageValue.Full
             {| Page.id := id;
                Page.title := "Untitled";
                Page.blocks :=
                  [ plain_block (pretty (clock env (S (ticks w))) +:+ "-1")
                                BlockType.H1 "Untitled";
                    plain_block (pretty (clock env (S (S (ticks w)))) +:+ "-2")
                                BlockType.P "" ] |}) ] /\
  currentPageId st' = Some id.
Proof.
  intros Hkeys Hcur. unfold step. cbn [callback fst snd].
  unfold handleDeletePage, mbind, Handler_bind. cbn [call completion queued world].
  rewrite (filter_only _ _ Hkeys), bool_decide_eq_true_2 by done.
  rewrite handleAddPage_run. simpl.
  by rewrite (JsObjectFacts.delete_only _ _ Hkeys), set_nil.
Qed.

Lemma delete_last_page_witness :
  let st' := snd (step env0 (world0, st1) (deletePage "page-1")) in
  pages st' =
    [ ("page-1700000000000",
       PageValue.Full
         {| Page.id := "page-1700000000000";
            Page.title := "Untitled";
            Page.blocks := [ plain_block "1700000000001-1" BlockType.H1 "Untitled";
                             plain_block "1700000000002-2" BlockType.P "" ] |}) ] /\
  currentPageId st' = Some "page-1700000000000".
Proof.
  exact (delete_last_page env0 world0 st1 "page-1" eq_refl eq_refl).
Defined.

(** What [handleAddPage] does with the blocks it is given: the title is
    the content of the first heading-1 block as it stands. *)
Lemma addPage_title env w st blocks :
  currentPage (state_after (handleAddPage (Some blocks)) env w st)
  = Some {| Page.id := "page-" +:+ pretty (clock env (ticks w));
            Page.title := match find_H1 blocks with
                          | Some h1Block => ContentBlock.content h1Block
                          | None => "Untitled"
                          end;
            Page.blocks := blocks |}.
Proof.
  unfold state_after. rewrite handleAddPage_run. simpl.
  unfold currentPage, currentPageValue, JsObject.read. simpl.
  by rewrite JsObjectFacts.get_set_eq.
Qed.

(** C6 does not hold of the code: a page created from blocks gets the raw
    content of their first heading-1 block as its title, where the title
    rule (and [updateBlocksForCurrentPage]) strips tags, trims and falls
    back to "Untitled". *)
Theorem addPage_title_not_derived :
  (Page.title <$> currentPage (state_after (handleAddPage (Some [heading "Hello <b>World</b>"]))
                                           env0 world0 initialState)
   = Some "Hello <b>World</b>" /\
   TitleRule.deriveTitle [heading "Hello <b>World</b>"] = "Hello World") /\
  (Page.title <$> currentPage (state_after (handleAddPage (Some [heading ""]))
                                           env0 world0 initialState)
   = Some "" /\
   TitleRule.deriveTitle [heading ""] = "Untitled").
Proof. repeat split; by rewrite ?addPage_title. Qed.

(** ** Loading (C7) *)

Section Loading.
Variable env : Env.

Lemma load_theme_queued w :
  (match localStorage w !! "editor-theme" ≫= Theme_of_string with
   | Some savedTheme => call (setTheme savedTheme)
   | None =>
       prefersDark ← matchMedia_prefersDark;
       call (setTheme (if prefersDark : bool then dark else light))
   end) env w
  = {| completion := Normal tt; queued := [setTheme (loadedTheme env w)]; world := w |}.
Proof.
  unfold loadedTheme.
  by destruct (localStorage w !! "editor-theme" ≫= Theme_of_string).
Qed.

(** The state after a load whose "editor-pages" entry does not parse. *)
Lemma load_corrupt w st savedPages :
  localStorage w !! "editor-pages" = Some savedPages ->
  savedPages <> "" ->
  JSON_parse env savedPages = None ->
  state_after loadEffect env w st =
  {| pages := JsObject.set (newPageId_at env w)
                (PageValue.Full (newPage_at env w None)) (pages st);
     currentPageId := Some (newPageId_at env w);
     theme := loadedTheme env w;
     isCommandPaletteOpen := isCommandPaletteOpen st;
     isAiSearchOpen := isAiSearchOpen st;
     renderError := renderError st |}.
Proof.
  intros Hentry Hne Hparse. unfold state_after, loadEffect.
  unfold mbind at 1, Handler_bind at 1, localStorage_getItem at 1.
  cbn [completion queued world].
  unfold mbind at 1, Handler_bind at 1. rewrite load_theme_queued.
  cbn [completion queued world].
  unfold try_catch, mbind, Handler_bind, localStorage_getItem, parse_pages.
  cbn [completion queued world]. rewrite Hentry.
  destruct savedPages as [|c rest]; [done|].
  cbn [completion queued world]. rewrite Hparse.
  cbn [completion queued world console_error].
  rewrite handleAddPage_run. reflexivity.
Qed.

(** The state after a load that finds no "editor-pages" entry. *)
Lemma load_absent w st template rest :
  localStorage w !! "editor-pages" = None ->
  pageTemplates env = template :: rest ->
  state_after loadEffect env w st =
  {| pages := JsObject.set (newPageId_at env w)
                (PageValue.Full (newPage_at env w (Some (PageTemplate.blocks template))))
                (pages st);
     currentPageId := Some (newPageId_at env w);
     theme := loadedTheme env w;
     isCommandPaletteOpen := isCommandPaletteOpen st;
     isAiSearchOpen := isAiSearchOpen st;
     renderError := renderError st |}.
Proof.
  intros Hentry Htpl. unfold state_after, loadEffect.
  unfold mbind at 1, Handler_bind at 1, localStorage_getItem at 1.
  cbn [completion queued world].
  unfold mbind at 1, Handler_bind at 1. rewrite load_theme_queued.
  cbn [completion queued world].
  unfold try_catch, mbind, Handler_bind, localStorage_getItem, first_template_blocks.
  cbn [completion queued world]. rewrite Hentry, Htpl.
  cbn [completion queued world].
  rewrite handleAddPage_run. reflexivity.
Qed.

Lemma with_pages_entry_theme w entry :
  loadedTheme env (with_pages_entry w entry) = loadedTheme env w.
Proof.
  unfold loadedTheme, with_pages_entry. simpl.
  destruct entry; [by rewrite lookup_insert_ne|by rewrite lookup_delete_ne].
Qed.
End Loading.

(** C7, as amended: started on the initial state, a load whose
    "editor-pages" entry fails to parse and a load that finds no such
    entry both leave exactly one page, under the same fresh id, and select
    it, with the same theme.  After the parse failure the page is the
    built-in default (title "Untitled", a heading-1 block "Untitled" and
    an empty paragraph); with no entry its blocks are those of the first
    template. *)
Theorem load_fallback_pages
  (env : Env) (w : World) (savedPages : string) (template : PageTemplate.t)
  (rest : list PageTemplate.t) :
  savedPages <> "" ->
  JSON_parse env savedPages = None ->
  pageTemplates env = template :: rest ->
  let corrupt := state_after loadEffect env (with_pages_entry w (Some savedPages)) initialState in
  let absent := state_after loadEffect env (with_pages_entry w None) initialState in
  let id := "page-" +:+ pretty (clock env (ticks w)) in
  (pages corrupt =
     [ (id, PageValue.Full
              {| Page.id := id;
                 Page.title := "Untitled";
                 Page.blocks :=
                   [ plain_block (pretty (clock env (S (ticks w))) +:+ "-1")
                                 BlockType.H1 "Untitled";
                     plain_block (pretty (clock env (S (S (ticks w)))) +:+ "-2")
                                 BlockType.P "" ] |}) ] /\
   currentPageId corrupt = Some id) /\
  (exists page : Page.t,
     pages absent = [ (id, PageValue.Full page) ] /\
     Page.id page = id /\
     Page.blocks page = PageTemplate.blocks template /\
     currentPageId absent = Some id) /\
  theme corrupt = theme absent.
Proof.
  intros Hne Hparse Htpl.
  rewrite (load_corrupt env _ _ savedPages), (load_absent env _ _ template rest);
    try done.
  - cbn [pages currentPageId theme initialState].
    rewrite !set_nil, !with_pages_entry_theme.
    split; [done|]. split; [|done].
    by exists (newPage_at env w (Some (PageTemplate.blocks template))).
  - simpl. apply lookup_delete_eq.
  - simpl. apply lookup_insert_eq.
Qed.

Lemma load_fallback_pages_witness :
  let corrupt := state_after loadEffect env_welcome (with_pages_entry world0 (Some "{")) initialState in
  let absent := state_after loadEffect env_welcome (with_pages_entry world0 None) initialState in
  (pages corrupt =
     [ ("page-1700000000000",
        PageValue.Full
          {| Page.id := "page-1700000000000"; Page.title := "Untitled";
             Page.blocks := [ plain_block "1700000000001-1" BlockType.H1 "Untitled";
                              plain_block "1700000000002-2" BlockType.P "" ] |}) ] /\
   currentPageId corrupt = Some "page-1700000000000") /\
  (exists page : Page.t,
     pages absent = [ ("page-1700000000000", PageValue.Full page) ] /\
     Page.id page = "page-1700000000000" /\
     Page.blocks page = PageTemplate.blocks welcome /\
     currentPageId absent = Some "page-1700000000000") /\
  theme corrupt = theme absent.
Proof.
  apply (load_fallback_pages env_welcome world0 "{" welcome []);
    [discriminate|reflexivity|reflexivity].
Defined.

(** C7 as stated fails: the two loads call [handleAddPage] with different
    arguments, so the seeded pages differ. *)
Lemma load_fallbacks_differ :
  JSON_parse env_welcome "{" = None /\
  state_after loadEffect env_welcome (with_pages_entry world0 (Some "{")) initialState
  <> state_after loadEffect env_welcome (with_pages_entry world0 None) initialState.
Proof.
  split; [reflexivity|].
  intros Heq. apply (f_equal pages) in Heq.
  rewrite (load_corrupt env_welcome _ _ "{"), (load_absent env_welcome _ _ welcome [])
    in Heq; done.
Qed.

(** The disagreement does not hinge on what the first template holds: its
    block ids are fixed while those of the default page follow the clock,
    so whatever the non-empty catalogue, the two loads differ at some
    clock. *)
Lemma load_fallbacks_differ_any_catalogue
  (env : Env) (w : World) (savedPages : string) :
  savedPages <> "" ->
  JSON_parse env savedPages = None ->
  pageTemplates env <> [] ->
  ~ (forall readings : nat -> Z,
       state_after loadEffect (with_clock env readings)
                   (with_pages_entry w (Some savedPages)) initialState
       = state_after loadEffect (with_clock env readings)
                     (with_pages_entry w None) initialState).
Proof.
  intros Hne Hparse Hcat Hall.
  destruct (pageTemplates env) as [|template rest] eqn:Htpl; [done|].
  assert (forall z : Z,
            PageTemplate.blocks template
            = [ plain_block (pretty z +:+ "-1") BlockType.H1 "Untitled";
                plain_block (pretty z +:+ "-2") BlockType.P "" ]) as Hblocks.
  { intros z. specialize (Hall (fun _ => z)). apply (f_equal pages) in Hall.
    rewrite (load_corrupt _ _ _ savedPages), (load_absent _ _ _ template rest)
      in Hall; try done; [|apply lookup_delete_eq|apply lookup_insert_eq].
    cbn [pages initialState] in Hall. rewrite !set_nil in Hall.
    by injection Hall as _ <-. }
  pose proof (Hblocks 0) as H0. rewrite (Hblocks 1) in H0. discriminate H0.
Qed.

(** ** Saving (C9) *)

Section Saving.
Variable env : Env.

Lemma console_grows {A} (l : list A) x : (l ++ [x])%list <> l.
Proof.
  intros H. apply (f_equal length) in H. rewrite length_app in H. simpl in H. lia.
Qed.

(** The durable store after a save in which no write was refused. *)
Lemma save_store w r :
  completion (saveEffect r env w) = Normal tt ->
  console (world (saveEffect r env w)) = console w ->
  localStorage (world (saveEffect r env w)) =
  (let themed := <["editor-theme" := Theme_string (theme r)]> (localStorage w) in
   let paged :=
     match pages r with
     | [] => base.delete "editor-pages" themed
     | _ => <["editor-pages" := JSON_stringify env (pages r)]> themed
     end in
   match currentPageId r with
   | Some (String _ _ as id) => <["editor-currentPageId" := id]> paged
   | _ => base.delete "editor-currentPageId" paged
   end).
Proof.
  unfold saveEffect, mbind, Handler_bind, try_catch, localStorage_setItem,
    localStorage_removeItem, stringify_pages, console_error.
  cbn [completion queued world ticks localStorage console].
  destruct (storageFull env (localStorage w) _ _);
    cbn [completion queued world ticks localStorage console]; [done|].
  destruct (pages r) as [|first others];
    cbn [JsObject.keys List.map length Nat.ltb Nat.leb completion queued world
         ticks localStorage console].
  - destruct (currentPageId r) as [[|c id]|];
      cbn [completion queued world ticks localStorage console]; try done.
    destruct (storageFull env _ _ _);
      cbn [completion queued world ticks localStorage console]; [|done].
    intros _ H. by apply console_grows in H.
  - destruct (storageFull env _ _ _);
      cbn [completion queued world ticks localStorage console].
    { intros _ H. by apply console_grows in H. }
    destruct (currentPageId r) as [[|c id]|];
      cbn [completion queued world ticks localStorage console]; try done.
    destruct (storageFull env _ _ _);
      cbn [completion queued world ticks localStorage console]; [|done].
    intros _ H. by apply console_grows in H.
Qed.

(** On a store that takes every write the effect completes and logs
    nothing. *)
Lemma save_accepted w r :
  (forall store key value, storageFull env store key value = false) ->
  completion (saveEffect r env w) = Normal tt /\
  console (world (saveEffect r env w)) = console w.
Proof.
  intros Hroom.
  unfold saveEffect, mbind, Handler_bind, try_catch, localStorage_setItem,
    localStorage_removeItem, stringify_pages, console_error.
  cbn [completion queued world ticks localStorage console].
  rewrite Hroom. cbn [completion queued world ticks localStorage console].
  destruct (pages r) as [|first others];
    cbn [JsObject.keys List.map length Nat.ltb Nat.leb completion queued world
         ticks localStorage console];
    rewrite ?Hroom; cbn [completion queued world ticks localStorage console];
    destruct (currentPageId r) as [[|c id]|];
    cbn [completion queued world ticks localStorage console];
    rewrite ?Hroom; by cbn [completion queued world ticks localStorage console].
Qed.
End Saving.

(** C9: on a durable store that takes every write, a save completes, logs
    nothing, and leaves no "editor-pages" entry when [pages] is empty and
    the encoded mapping there otherwise; it leaves no
    "editor-currentPageId" entry when [currentPageId] is empty and leaves
    the id there otherwise. *)
Theorem save_entries (env : Env) (w : World) (r : State) :
  (forall store key value, storageFull env store key value = false) ->
  let saved := saveEffect r env w in
  let store := localStorage (world saved) in
  completion saved = Normal tt /\
  console (world saved) = console w /\
  store !! "editor-pages" =
    match JsObject.keys (pages r) with
    | [] => None
    | _ => Some (JSON_stringify env (pages r))
    end /\
  store !! "editor-currentPageId" =
    (if JsString.truthy (currentPageId r) then currentPageId r else None).
Proof.
  intros Hroom. cbv zeta.
  destruct (save_accepted env w r Hroom) as [Hdone Hlog].
  split; [done|]. split; [done|].
  rewrite (save_store env w r Hdone Hlog).
  destruct (pages r) as [|first others], (currentPageId r) as [[|c id]|];
    simpl; by simplify_map_eq.
Qed.

Lemma save_entries_witness :
  let saved := saveEffect st2 env_json world_saved in
  let store := localStorage (world saved) in
  completion saved = Normal tt /\
  console (world saved) = [] /\
  store !! "editor-pages" = Some "[pages of st2]" /\
  store !! "editor-currentPageId" = Some "page-1".
Proof.
  exact (save_entries env_json world_saved st2 (fun _ _ _ => eq_refl)).
Defined.

(** * Further properties of the callbacks and effects *)

(** ** More on objects *)

Section ObjectOrder.
Import JsObject JsObjectFacts.
Context {V : Type}.
Implicit Types (o : JsObject.t V) (k : string) (v : V).

Lemma keys_overwrite k v o : keys (overwrite k v o) = keys o.
Proof.
  induction o as [|[k0 v0] r IH]; simpl; [done|].
  destruct (String.eqb k0 k); simpl; [done|]. by rewrite IH.
Qed.

(** Writing an existing property does not move it. *)
Lemma keys_set_existing k v o : is_Some (get k o) -> keys (set k v o) = keys o.
Proof. intros [v0 Hg]. unfold set. rewrite Hg. apply keys_overwrite. Qed.

(** A new property whose name is no array index is enumerated last. *)
Lemma keys_set_new k v o :
  get k o = None -> array_index k = None -> keys (set k v o) = (keys o ++ [k])%list.
Proof.
  intros Hg Hi. unfold set, keys. rewrite Hg, Hi. by rewrite List.map_app.
Qed.

Lemma delete_absent k o : get k o = None -> delete k o = o.
Proof.
  induction o as [|[k0 v0] r IH]; simpl; [done|].
  destruct (String.eqb k0 k); simpl; [done|]. intros Hg. by rewrite IH.
Qed.

Lemma overwrite_overwrite k v1 v2 o :
  overwrite k v2 (overwrite k v1 o) = overwrite k v2 o.
Proof.
  induction o as [|[k0 v0] r IH]; simpl; [done|].
  destruct (String.eqb k0 k) eqn:Hk; simpl; rewrite Hk; [done|]. by rewrite IH.
Qed.

(** Of two writes to an existing property only the second one shows. *)
Lemma set_set_existing k v1 v2 o :
  is_Some (get k o) -> set k v2 (set k v1 o) = set k v2 o.
Proof.
  intros [v0 Hg]. unfold set at 1. rewrite get_set_eq.
  unfold set. rewrite Hg. apply overwrite_overwrite.
Qed.

Lemma newPageId_no_index env w : array_index (newPageId_at env w) = None.
Proof. reflexivity. Qed.

Lemma newPageId_nonempty env w : newPageId_at env w <> "".
Proof. discriminate. Qed.
End ObjectOrder.

(** ** Creating a page *)

Lemma createPage_state env w st blocks :
  snd (step env (w, st) (createPage blocks)) =
  {| pages := JsObject.set (newPageId_at env w) (PageValue.Full (newPage_at env w blocks))
                (pages st);
     currentPageId := Some (newPageId_at env w);
     theme := theme st;
     isCommandPaletteOpen := isCommandPaletteOpen st;
     isAiSearchOpen := isAiSearchOpen st;
     renderError := renderError st |}.
Proof. unfold step. cbn [callback fst snd]. by rewrite handleAddPage_run. Qed.

Lemma createPage_current env w st blocks :
  currentPage (snd (step env (w, st) (createPage blocks))) = Some (newPage_at env w blocks).
Proof.
  rewrite createPage_state. unfold currentPage, currentPageValue, JsObject.read. simpl.
  by rewrite JsObjectFacts.get_set_eq.
Qed.

(** X1: whatever was selected before, after [handleAddPage] the current
    page is the created one, with the blocks given (or the two default
    blocks), and the pages under every other key read as before. *)
Theorem createPage_selects_created
  (env : Env) (w : World) (st : State) (blocks : option (list ContentBlock.t))
  (k : string) :
  k <> "page-" +:+ pretty (clock env (ticks w)) ->
  let st' := snd (step env (w, st) (createPage blocks)) in
  (exists page,
     currentPage st' = Some page /\
     currentPageId st' = Some (Page.id page) /\
     Page.id page = "page-" +:+ pretty (clock env (ticks w)) /\
     Page.blocks page =
       default (defaultBlocks (clock env (S (ticks w))) (clock env (S (S (ticks w)))))
               blocks) /\
  JsObject.get k (pages st') = JsObject.get k (pages st) /\
  theme st' = theme st.
Proof.
  intros Hk. cbv zeta.
  split; [|rewrite createPage_state; split; [|done]].
  - exists (newPage_at env w blocks). rewrite createPage_current.
    by rewrite createPage_state.
  - simpl. apply JsObjectFacts.get_set_ne. by intros <-.
Qed.

Lemma createPage_selects_created_witness :
  let st' := snd (step env0 (world0, st2) (createPage (Some [heading "Plan"]))) in
  (exists page,
     currentPage st' = Some page /\
     currentPageId st' = Some (Page.id page) /\
     Page.id page = "page-1700000000000" /\
     Page.blocks page = [heading "Plan"]) /\
  JsObject.get "page-2" (pages st') = JsObject.get "page-2" (pages st2) /\
  theme st' = theme st2.
Proof.
  apply (createPage_selects_created env0 world0 st2 (Some [heading "Plan"]) "page-2").
  discriminate.
Defined.

(** X2: when the id built from the clock is not in use, [handleAddPage]
    adds exactly one key, enumerated after all the existing ones. *)
Theorem createPage_fresh_id_appends
  (env : Env) (w : World) (st : State) (blocks : option (list ContentBlock.t)) :
  JsObject.get ("page-" +:+ pretty (clock env (ticks w))) (pages st) = None ->
  JsObject.keys (pages (snd (step env (w, st) (createPage blocks))))
  = (JsObject.keys (pages st) ++ ["page-" +:+ pretty (clock env (ticks w))])%list.
Proof.
  intros Hfresh. rewrite createPage_state. simpl.
  by apply keys_set_new.
Qed.

Lemma createPage_fresh_id_appends_witness :
  JsObject.keys (pages (snd (step env0 (world0, st2) (createPage None))))
  = ["page-1"; "page-2"; "page-1700000000000"].
Proof.
  exact (createPage_fresh_id_appends env0 world0 st2 None eq_refl).
Defined.

(** X3: when the clock still reads the millisecond of an existing page's
    id, [handleAddPage] builds the same id again: no key is added and the
    new page takes the place of the old one, which is lost. *)
Theorem createPage_same_id_replaces
  (env : Env) (w : World) (st : State) (blocks : option (list ContentBlock.t))
  (old : PageValue.t) :
  JsObject.get ("page-" +:+ pretty (clock env (ticks w))) (pages st) = Some old ->
  let st' := snd (step env (w, st) (createPage blocks)) in
  JsObject.keys (pages st') = JsObject.keys (pages st) /\
  PageValue.blocks <$> JsObject.get ("page-" +:+ pretty (clock env (ticks w))) (pages st')
  = Some (default (defaultBlocks (clock env (S (ticks w))) (clock env (S (S (ticks w)))))
                  blocks).
Proof.
  intros Hold. cbv zeta. rewrite createPage_state. simpl. split.
  - apply keys_set_existing. unfold newPageId_at. by rewrite Hold.
  - by rewrite JsObjectFacts.get_set_eq.
Qed.

Lemma createPage_same_id_replaces_witness :
  let st1' := snd (step env_frozen (world0, initialState) (createPage (Some [heading "First"]))) in
  let st' := snd (step env_frozen (world0, st1') (createPage (Some [heading "Second"]))) in
  JsObject.keys (pages st') = JsObject.keys (pages st1') /\
  PageValue.blocks <$> JsObject.get "page-1700000000000" (pages st')
  = Some [heading "Second"].
Proof.
  exact (createPage_same_id_replaces env_frozen world0
           (snd (step env_frozen (world0, initialState) (createPage (Some [heading "First"]))))
           (Some [heading "Second"])
           (PageValue.Full {| Page.id := "page-1700000000000"; Page.title := "First";
                              Page.blocks := [heading "First"] |}) eq_refl).
Defined.

(** ** Deleting a page *)

Lemma deletePage_other_state env w st id :
  currentPageId st <> Some id ->
  step env (w, st) (deletePage id) =
  (w, {| pages := JsObject.delete id (pages st);
         currentPageId := currentPageId st;
         theme := theme st;
         isCommandPaletteOpen := isCommandPaletteOpen st;
         isAiSearchOpen := isAiSearchOpen st;
         renderError := renderError st |}).
Proof.
  intros Hcur. unfold step. cbn [callback fst snd].
  unfold handleDeletePage, mbind, Handler_bind. cbn [call completion queued world].
  by rewrite bool_decide_eq_false_2.
Qed.

(** X4: deleting an id that is no key of [pages] and is not the selection
    changes nothing, and reads no clock. *)
Theorem deletePage_missing_is_noop (env : Env) (w : World) (st : State) (id : string) :
  JsObject.get id (pages st) = None ->
  currentPageId st <> Some id ->
  step env (w, st) (deletePage id) = (w, st).
Proof.
  intros Hg Hcur. rewrite deletePage_other_state by done.
  rewrite delete_absent by done. by destruct st.
Qed.

Lemma deletePage_missing_is_noop_witness :
  step env0 (world0, st2) (deletePage "page-3") = (world0, st2).
Proof.
  apply deletePage_missing_is_noop; [reflexivity|discriminate].
Defined.

(** X5: deleting a page that is not the selected one removes that key
    and nothing else: the selection stays, every other key reads as
    before and keeps its place in the enumeration, and no page is
    created. *)
Theorem deletePage_other_keeps_selection
  (env : Env) (w : World) (st : State) (id k : string) :
  currentPageId st <> Some id ->
  k <> id ->
  let st' := snd (step env (w, st) (deletePage id)) in
  currentPageId st' = currentPageId st /\
  JsObject.get id (pages st') = None /\
  JsObject.get k (pages st') = JsObject.get k (pages st) /\
  JsObject.keys (pages st')
  = List.filter (fun key => negb (String.eqb key id)) (JsObject.keys (pages st)).
Proof.
  intros Hcur Hk. cbv zeta. rewrite deletePage_other_state by done. simpl.
  split; [done|]. split; [apply JsObjectFacts.get_delete_eq|].
  split; [by apply JsObjectFacts.get_delete_ne|apply JsObjectFacts.keys_delete].
Qed.

Lemma deletePage_other_keeps_selection_witness :
  let st' := snd (step env0 (world0, st2) (deletePage "page-2")) in
  currentPageId st' = Some "page-1" /\
  JsObject.get "page-2" (pages st') = None /\
  JsObject.get "page-1" (pages st') = JsObject.get "page-1" (pages st2) /\
  JsObject.keys (pages st') = ["page-1"].
Proof.
  apply (deletePage_other_keeps_selection env0 world0 st2 "page-2" "page-1");
    discriminate.
Defined.

(** X6: deleting the selected page while another key exists creates no
    page: the mapping just loses the key, and the selection moves to the
    first key [Object.keys] enumerates among those that remain. *)
Theorem deletePage_selected_moves_to_first
  (env : Env) (w : World) (st : State) (id other : string) :
  currentPageId st = Some id ->
  In other (JsObject.keys (pages st)) ->
  other <> id ->
  let st' := snd (step env (w, st) (deletePage id)) in
  pages st' = JsObject.delete id (pages st) /\
  currentPageId st' = head (JsObject.keys (pages st')) /\
  (exists first page,
     currentPageId st' = Some first /\ first <> id /\
     JsObject.get first (pages st') = Some page /\
     JsObject.get first (pages st) = Some page).
Proof.
  intros Hcur Hin Hne. cbv zeta. unfold step. cbn [callback fst snd].
  unfold handleDeletePage, mbind, Handler_bind. cbn [call completion queued world].
  rewrite bool_decide_eq_true_2 by done.
  destruct (List.filter _ (JsObject.keys (pages st))) as [|first rest] eqn:Hrem.
  - exfalso.
    assert (In other (List.filter (fun key => negb (String.eqb key id))
                                  (JsObject.keys (pages st)))) as Hf.
    { apply List.filter_In. split; [done|]. by destruct (String.eqb_spec other id). }
    rewrite Hrem in Hf. destruct Hf.
  - simpl. split; [done|].
    rewrite JsObjectFacts.keys_delete, Hrem. split; [done|].
    assert (In first (List.filter (fun key => negb (String.eqb key id))
                                  (JsObject.keys (pages st)))) as Hf.
    { rewrite Hrem. by left. }
    apply List.filter_In in Hf as [Hfin Hfne].
    destruct (String.eqb_spec first id) as [|Hfirst]; [done|].
    apply JsObjectFacts.in_keys in Hfin as [page Hpage].
    exists first, page. repeat split; try done.
    rewrite JsObjectFacts.get_delete_ne; [done|]. by intros <-.
Qed.

Lemma deletePage_selected_moves_to_first_witness :
  let st' := snd (step env0 (world0, st2) (deletePage "page-1")) in
  pages st' = JsObject.delete "page-1" (pages st2) /\
  currentPageId st' = head (JsObject.keys (pages st')) /\
  (exists first page,
     currentPageId st' = Some first /\ first <> "page-1" /\
     JsObject.get first (pages st') = Some page /\
     JsObject.get first (pages st2) = Some page).
Proof.
  apply (deletePage_selected_moves_to_first env0 world0 st2 "page-1" "page-2");
    [reflexivity|right; left; reflexivity|discriminate].
Defined.

(** ** A page stays selected *)

(** X7: once a page is selected and exists, this stays so after each
    operation of every sequence whose [switchPage] calls name existing
    pages; in particular [pages] is never emptied, since deleting the last
    page seeds a new one. *)
Theorem page_stays_selected (env : Env) (ops : list StoreOp) (s : World * State) :
  page_selected (snd s) ->
  switches_to_existing env s ops = true ->
  Forall (fun s' => page_selected (snd s') /\ pages (snd s') <> []) (trace env s ops).
Proof.
  assert (forall st, resolves_unless (fun _ => False) st ->
                     page_selected st /\ pages st <> []) as Hsel.
  { intros st [[]|(id & Hid & Hin)]. split; [by exists id|].
    intros Hnil. rewrite Hnil in Hin. destruct Hin. }
  revert s. induction ops as [|op ops IH]; intros s Hinv Hguard; simpl.
  - constructor.
  - simpl in Hguard. apply andb_prop in Hguard as [Hop Hrest].
    assert (resolves_unless (fun _ => False) (snd (step env s op))) as Hnext.
    { apply step_resolves; [by right|]. by destruct op. }
    constructor; [by apply Hsel|].
    apply IH; [|done]. by apply Hsel.
Qed.

Lemma page_stays_selected_witness :
  Forall (fun s' => page_selected (snd s') /\ pages (snd s') <> [])
         (trace env0 (world0, st1)
                [deletePage "page-1"; createPage None; deletePage "page-1700000000003";
                 deletePage "page-1700000000000"]).
Proof.
  apply page_stays_selected.
  - exists "page-1". split; [reflexivity|left; reflexivity].
  - reflexivity.
Defined.

(** ** Editing: edge cases and composition *)


Section EditingMore.
Import JsObject JsObjectFacts JsString.

Lemma inherited_no_index k : inherited_name k = true -> array_index k = None.
Proof.
  unfold inherited_name. intros Hname.
  apply List.existsb_exists in Hname as (name & Hin & Heq).
  apply String.eqb_eq in Heq as ->. simpl in Hin.
  repeat (destruct Hin as [<-|Hin]; [reflexivity|]). destruct Hin.
Qed.

Lemma read_Inherited k (o : Pages) :
  read k o = Inherited -> get k o = None /\ inherited_name k = true.
Proof.
  unfold read. destruct (get k o); [done|]. by destruct (inherited_name k).
Qed.

Lemma overwrite_new_last {V} k (v1 v2 : V) (o : JsObject.t V) :
  get k o = None -> overwrite k v2 (o ++ [(k, v1)])%list = (o ++ [(k, v2)])%list.
Proof.
  induction o as [|[k0 v0] r IH]; simpl; [by rewrite String.eqb_refl|].
  destruct (String.eqb k0 k); [done|]. intros Hg. by rewrite IH.
Qed.

(** Of two writes to a new property that is no array index only the
    second one shows. *)
Lemma set_set_new {V} k (v1 v2 : V) (o : JsObject.t V) :
  get k o = None -> array_index k = None -> set k v2 (set k v1 o) = set k v2 o.
Proof.
  intros Hg Hi. unfold set at 1. rewrite get_set_eq.
  unfold set. rewrite Hg, Hi. by apply overwrite_new_last.
Qed.

Lemma computed_title_facts newBlocks :
  computed_title newBlocks <> "" /\
  has_char lt_sign (computed_title newBlocks) = false /\
  trim (computed_title newBlocks) = computed_title newBlocks /\
  or_else (trim (replace_tags (computed_title newBlocks))) "Untitled"
  = computed_title newBlocks.
Proof.
  unfold computed_title. destruct (find_H1 newBlocks) as [h1Block|].
  - apply computed_title_normal.
  - by vm_compute.
Qed.

(** Of two replacements on the same key only the second one shows. *)
Lemma replaceBlocks_twice id blocks1 blocks2 prev :
  replaceBlocks id blocks2 (replaceBlocks id blocks1 prev) = replaceBlocks id blocks2 prev.
Proof.
  rewrite (replaceBlocks_read id blocks1 prev), (replaceBlocks_read id blocks2 prev).
  destruct (read id prev) as [value| |] eqn:Hread.
  - rewrite replaceBlocks_read, (read_get _ _ _ (get_set_eq _ _ _)).
    rewrite set_set_existing by (rewrite (read_Own _ _ _ Hread); eauto).
    by destruct value.
  - apply read_Inherited in Hread as [Hg Hname].
    rewrite replaceBlocks_read, (read_get _ _ _ (get_set_eq _ _ _)). simpl.
    apply set_set_new; [done|by apply inherited_no_index].
  - by rewrite replaceBlocks_read, Hread.
Qed.

(** The updater removes and moves no key; it adds one when [prev] reads
    at the id without having it as a key. *)
Lemma replaceBlocks_keys id newBlocks prev :
  keys (replaceBlocks id newBlocks prev) =
  match read id prev with
  | Inherited => (keys prev ++ [id])%list
  | _ => keys prev
  end.
Proof.
  rewrite replaceBlocks_read. destruct (read id prev) as [value| |] eqn:Hread.
  - apply keys_set_existing. rewrite (read_Own _ _ _ Hread). eauto.
  - apply read_Inherited in Hread as [Hg Hname].
    apply keys_set_new; [done|by apply inherited_no_index].
  - done.
Qed.

Lemma currentPageValue_read st id :
  currentPageId st = Some id -> id <> "" ->
  currentPageValue st = read id (pages st).
Proof.
  intros Hid Hne. unfold currentPageValue. rewrite Hid. by destruct id.
Qed.

Lemma currentPageValue_falsy st :
  truthy (currentPageId st) = false -> currentPageValue st = Missing.
Proof.
  unfold currentPageValue. by destruct (currentPageId st) as [[|c id]|].
Qed.
End EditingMore.

(** X8: without a current page — nothing selected, the empty id, or an id
    at which [pages] has nothing, neither as a key nor as an inherited
    member — [updateBlocksForCurrentPage] changes nothing and creates no
    page for the blocks. *)
Theorem updateBlocks_without_page_is_noop
  (env : Env) (w : World) (st : State) (newBlocks : list ContentBlock.t) :
  currentPageValue st = JsObject.Missing ->
  dispatch (updateBlocksForCurrentPage st newBlocks) env w st = (Normal tt, w, st).
Proof.
  intros Hnone. unfold dispatch.
  destruct (currentPageId st) as [[|c id]|] eqn:Hid;
    try (unfold updateBlocksForCurrentPage; rewrite Hid; reflexivity).
  rewrite (currentPageValue_read st (String c id)) in Hnone by done.
  unfold updateBlocksForCurrentPage. rewrite Hid. simpl.
  rewrite replaceBlocks_read, Hnone. by destruct st.
Qed.

Lemma updateBlocks_without_page_is_noop_witness :
  dispatch (updateBlocksForCurrentPage st2_dangling [heading "Lost"]) env0 world0 st2_dangling
  = (Normal tt, world0, st2_dangling).
Proof.
  exact (updateBlocks_without_page_is_noop env0 world0 st2_dangling [heading "Lost"] eq_refl).
Defined.

(** X9: of two successive [updateBlocksForCurrentPage] calls only the
    second one shows, whether the first was committed and rendered before
    the second was made or both were queued from the same render. *)
Theorem updateBlocks_last_wins
  (env : Env) (w : World) (st : State) (blocks1 blocks2 : list ContentBlock.t) :
  let st1 := state_after (updateBlocksForCurrentPage st blocks1) env w st in
  state_after (updateBlocksForCurrentPage st1 blocks2) env w st1
  = state_after (updateBlocksForCurrentPage st blocks2) env w st /\
  commit (queued (updateBlocksForCurrentPage st blocks1 env w) ++
          queued (updateBlocksForCurrentPage st blocks2 env w))%list st
  = state_after (updateBlocksForCurrentPage st blocks2) env w st.
Proof.
  cbv zeta. unfold state_after, updateBlocksForCurrentPage.
  destruct (currentPageId st) as [[|c id]|] eqn:Hid; simpl; rewrite ?Hid; try done.
  simpl. by rewrite replaceBlocks_twice.
Qed.

(** X10: [updateBlocksForCurrentPage] never removes or reorders keys of
    [pages], and it adds none when the selection is empty, is a key, or
    is an id at which [pages] has nothing.  Only a selection that is no
    key but names a member every object inherits gets a key of its own,
    enumerated last. *)
Theorem updateBlocks_keeps_keys
  (env : Env) (w : World) (st : State) (newBlocks : list ContentBlock.t) :
  JsObject.keys (pages (state_after (updateBlocksForCurrentPage st newBlocks) env w st))
  = match currentPageValue st with
    | JsObject.Inherited => (JsObject.keys (pages st) ++ option_list (currentPageId st))%list
    | _ => JsObject.keys (pages st)
    end.
Proof.
  destruct (JsString.truthy (currentPageId st)) eqn:Htruthy.
  2: { by rewrite updateBlocks_state_empty, currentPageValue_falsy. }
  destruct (currentPageId st) as [[|c id]|] eqn:Hid; try done.
  rewrite (updateBlocks_state env w st newBlocks (String c id)) by done.
  rewrite (currentPageValue_read st (String c id)) by done. simpl.
  apply replaceBlocks_keys.
Qed.

Example updateBlocks_inherited_name_adds_key :
  JsObject.keys (pages (state_after
                          (updateBlocksForCurrentPage st2_constructor [heading "Plan"])
                          env0 world0 st2_constructor))
  = ["page-1"; "page-2"; "constructor"] /\
  JsObject.get "constructor"
    (pages (state_after (updateBlocksForCurrentPage st2_constructor [heading "Plan"])
                        env0 world0 st2_constructor))
  = Some (PageValue.NoId "Plan" [heading "Plan"]).
Proof. split; reflexivity. Qed.

(** X11: the title [updateBlocksForCurrentPage] stores is never empty,
    holds no [<], has no white space left at either end, and is stable:
    blocks whose first heading-1 block has that title as content give the
    same title again. *)
Theorem updateBlocks_title_normal_form
  (env : Env) (w : World) (st : State) (newBlocks : list ContentBlock.t) (page : Page.t) :
  currentPage st = Some page ->
  let st' := state_after (updateBlocksForCurrentPage st newBlocks) env w st in
  exists page',
    currentPage st' = Some page' /\
    Page.title page' <> "" /\
    has_char JsString.lt_sign (Page.title page') = false /\
    JsString.trim (Page.title page') = Page.title page' /\
    forall (again : list ContentBlock.t) (h1Block : ContentBlock.t),
      find_H1 again = Some h1Block ->
      ContentBlock.content h1Block = Page.title page' ->
      Page.title <$> currentPage (state_after (updateBlocksForCurrentPage st' again) env w st')
      = Some (Page.title page').
Proof.
  intros Hcur. apply currentPage_Some in Hcur as (id & Hid & Hne & Hg).
  cbv zeta. rewrite (updateBlocks_state env w st newBlocks id Hid Hne).
  set (st' := {| pages := replaceBlocks id newBlocks (pages st) |}).
  destruct (computed_title_facts newBlocks) as (Hnonempty & Hlt & Htrim & Hstable).
  assert (JsObject.get id (pages st')
          = Some (PageValue.Full {| Page.id := Page.id page; Page.blocks := newBlocks;
                                    Page.title := computed_title newBlocks |})) as Hg'.
  { simpl. by rewrite (replaceBlocks_get _ _ _ _ Hg). }
  eexists. split; [by apply (currentPage_get st' id)|].
  simpl. repeat split; try done.
  intros again h1Block Hfind Hcontent.
  rewrite (updateBlocks_state env w st' again id) by done.
  erewrite (currentPage_get _ id); [| done | done |].
  2: { simpl. by rewrite (replaceBlocks_get _ _ _ _ Hg'). }
  simpl. unfold computed_title at 1. by rewrite Hfind, Hcontent, Hstable.
Qed.

Lemma updateBlocks_title_normal_form_witness :
  let st' := state_after (updateBlocksForCurrentPage st2 [heading " <i>Road</i> map <br"])
                         env0 world0 st2 in
  exists page',
    currentPage st' = Some page' /\
    Page.title page' <> "" /\
    has_char JsString.lt_sign (Page.title page') = false /\
    JsString.trim (Page.title page') = Page.title page' /\
    forall (again : list ContentBlock.t) (h1Block : ContentBlock.t),
      find_H1 again = Some h1Block ->
      ContentBlock.content h1Block = Page.title page' ->
      Page.title <$> currentPage (state_after (updateBlocksForCurrentPage st' again)
                                              env0 world0 st')
      = Some (Page.title page').
Proof.
  exact (updateBlocks_title_normal_form env0 world0 st2 [heading " <i>Road</i> map <br"]
           {| Page.id := "page-1"; Page.title := "Notes"; Page.blocks := [heading "Notes"] |}
           eq_refl).
Defined.

(** ** Merging a search result: where it lands *)

Section AiSearchMore.
Import JsObject JsObjectFacts.

(** The state after an answered search, by what [prev[currentPageId]] is
    when the update is processed. *)
Lemma aiSearch_state env w r st prompt id text sources :
  currentPageId r = Some id -> id <> "" ->
  generateWithGoogleSearch env prompt = Normal (text, sources) ->
  state_after (handleAiSearch r prompt) env w st =
  match read id (pages st) with
  | Own value =>
      {| pages := set id (PageValue.with_blocks value
                            (PageValue.blocks value ++
                             [promptBlock_at env w prompt;
                              resultBlock_at env w text sources])%list) (pages st);
         currentPageId := currentPageId st; theme := theme st;
         isCommandPaletteOpen := isCommandPaletteOpen st;
         isAiSearchOpen := isAiSearchOpen st;
         renderError := renderError st |}
  | Inherited =>
      {| pages := pages st;
         currentPageId := currentPageId st; theme := theme st;
         isCommandPaletteOpen := isCommandPaletteOpen st;
         isAiSearchOpen := isAiSearchOpen st;
         renderError := Some "TypeError" |}
  | Missing => st
  end.
Proof.
  intros Hid Hne Hgen. unfold state_after.
  rewrite (handleAiSearch_fulfilled _ _ _ _ _ _ _ Hid Hne Hgen). simpl.
  unfold appendAiResult. destruct (read id (pages st)); try done. by destruct st.
Qed.

Lemma capturedPageValue_read r st id :
  currentPageId r = Some id -> capturedPageValue r st = read id (pages st).
Proof. intros Hid. unfold capturedPageValue. by rewrite Hid. Qed.
End AiSearchMore.

(** X12: an answered search whose updater does not throw — the id it
    captured is a key of [pages], or [pages] has nothing at it — touches
    only the page that was selected when the search was started (render
    [r]), also when another page is selected by the time the answer
    arrives (state [st]): every other page, the selection, the keys and
    their order are as before, and the target page keeps its id and its
    title — the title is not recomputed. *)
Theorem aiSearch_touches_only_its_page
  (env : Env) (w : World) (r st : State) (prompt text : string)
  (sources : list Source.t) (id k : string) :
  currentPageId r = Some id -> id <> "" ->
  generateWithGoogleSearch env prompt = Normal (text, sources) ->
  JsObject.read id (pages st) <> JsObject.Inherited ->
  k <> id ->
  let st' := state_after (handleAiSearch r prompt) env w st in
  JsObject.get k (pages st') = JsObject.get k (pages st) /\
  currentPageId st' = currentPageId st /\
  JsObject.keys (pages st') = JsObject.keys (pages st) /\
  (fun value => (PageValue.id value, PageValue.title value)) <$> JsObject.get id (pages st')
  = (fun value => (PageValue.id value, PageValue.title value)) <$> JsObject.get id (pages st) /\
  renderError st' = renderError st.
Proof.
  intros Hid Hne Hgen Hread Hk. cbv zeta.
  rewrite (aiSearch_state env w r st prompt id text sources Hid Hne Hgen).
  destruct (JsObject.read id (pages st)) as [value| |] eqn:Hr; try done.
  apply read_Own in Hr. simpl.
  split; [apply JsObjectFacts.get_set_ne; by intros <-|]. split; [done|].
  split; [apply keys_set_existing; by rewrite Hr|]. split; [|done].
  rewrite JsObjectFacts.get_set_eq, Hr. by destruct value.
Qed.

Lemma aiSearch_touches_only_its_page_witness :
  let st' := state_after (handleAiSearch st2 "what is X?") env_search world0 st2_second in
  JsObject.get "page-2" (pages st') = JsObject.get "page-2" (pages st2_second) /\
  currentPageId st' = Some "page-2" /\
  JsObject.keys (pages st') = ["page-1"; "page-2"] /\
  (fun value => (PageValue.id value, PageValue.title value))
    <$> JsObject.get "page-1" (pages st')
  = Some (Some "page-1", "Notes") /\
  renderError st' = None.
Proof.
  apply (aiSearch_touches_only_its_page env_search world0 st2 st2_second "what is X?"
           "X is Y." [citation] "page-1" "page-2");
    [reflexivity|discriminate|reflexivity|discriminate|discriminate].
Defined.

(** X25: when the page a search was started on is gone by the time the
    answer arrives, and its id is not the name of a member every object
    inherits, nothing is appended anywhere: the store is unchanged, no
    update throws and the call completes normally. *)
Theorem aiSearch_missing_page_is_noop
  (env : Env) (w : World) (r st : State) (prompt : string) (id : string)
  (text : string) (sources : list Source.t) :
  currentPageId r = Some id ->
  generateWithGoogleSearch env prompt = Normal (text, sources) ->
  JsObject.get id (pages st) = None ->
  JsObject.inherited_name id = false ->
  let '(completion, _, st') := dispatch (handleAiSearch r prompt) env w st in
  completion = Normal tt /\ st' = st.
Proof.
  intros Hid Hgen Hg Hname. unfold dispatch.
  destruct (decide (id = "")) as [->|Hne].
  - unfold handleAiSearch. rewrite Hid. simpl. done.
  - rewrite (handleAiSearch_fulfilled _ _ _ _ _ _ _ Hid Hne Hgen). simpl.
    split; [done|]. rewrite appendAiResult_missing; [by destruct st|].
    unfold JsObject.read. by rewrite Hg, Hname.
Qed.

Lemma aiSearch_missing_page_is_noop_witness :
  let '(completion, _, st') :=
    dispatch (handleAiSearch st2 "what is X?") env_search world0 st2_without_page1 in
  completion = Normal tt /\ st' = st2_without_page1.
Proof.
  exact (aiSearch_missing_page_is_noop env_search world0 st2 st2_without_page1 "what is X?"
           "page-1" "X is Y." [citation] eq_refl eq_refl eq_refl eq_refl).
Defined.

(** X13: started with nothing selected ([null] or the empty id),
    [handleAiSearch] returns at once: it completes normally and leaves the
    store and the clock alone, whatever the search service would have
    answered. *)
Theorem aiSearch_without_selection_is_noop
  (env : Env) (w : World) (r st : State) (prompt : string) :
  JsString.truthy (currentPageId r) = false ->
  dispatch (handleAiSearch r prompt) env w st = (Normal tt, w, st).
Proof.
  intros Hfalsy. unfold dispatch, handleAiSearch.
  by destruct (currentPageId r) as [[|c id]|].
Qed.

Lemma aiSearch_without_selection_is_noop_witness :
  dispatch (handleAiSearch initialState "what is X?") env_search world0 st2
  = (Normal tt, world0, st2).
Proof.
  exact (aiSearch_without_selection_is_noop env_search world0 initialState st2
           "what is X?" eq_refl).
Defined.

(** ** Ids of blocks built together *)

Lemma ends_with_char_suffix a b x s :
  ends_with_char a (s +:+ String x (String b EmptyString)) = Ascii.eqb b a.
Proof.
  induction s as [|c t IH]; [reflexivity|].
  simpl. destruct (t +:+ String x (String b EmptyString)) eqn:Ht; [|exact IH].
  by destruct t.
Qed.

(** X14: the two blocks of a page created without a [blocks] argument
    never share an id, even when the clock does not advance between the
    readings that go into them. *)
Theorem default_blocks_have_distinct_ids (env : Env) (w : World) (st : State) :
  exists page,
    currentPage (snd (step env (w, st) (createPage None))) = Some page /\
    length (Page.blocks page) = 2%nat /\
    NoDup (ContentBlock.id <$> Page.blocks page).
Proof.
  exists (newPage_at env w None).
  split; [|split; [reflexivity|]].
  - apply createPage_current.
  - simpl. apply NoDup_cons. split; [|apply NoDup_singleton].
    intros Hin. apply list_elem_of_singleton in Hin.
    apply (f_equal (ends_with_char "1")) in Hin.
    by rewrite !ends_with_char_suffix in Hin.
Qed.

(** ** Loading: every case *)

Section LoadingMore.
Variable env : Env.

Ltac load_pages_part :=
  unfold state_after, loadEffect;
  unfold mbind at 1, Handler_bind at 1, localStorage_getItem at 1;
  cbn [completion queued world];
  unfold mbind at 1, Handler_bind at 1; rewrite load_theme_queued;
  cbn [completion queued world];
  unfold try_catch, mbind, Handler_bind, localStorage_getItem, parse_pages,
    first_template_blocks;
  cbn [completion queued world].

(** The state after a load whose "editor-pages" entry decodes. *)
Lemma load_parsed w st savedPages parsedPages :
  localStorage w !! "editor-pages" = Some savedPages ->
  savedPages <> "" ->
  JSON_parse env savedPages = Some parsedPages ->
  state_after loadEffect env w st =
  {| pages := parsedPages;
     currentPageId :=
       restoredSelection (localStorage w !! "editor-currentPageId") parsedPages
                         (currentPageId st);
     theme := loadedTheme env w;
     isCommandPaletteOpen := isCommandPaletteOpen st;
     isAiSearchOpen := isAiSearchOpen st;
     renderError := renderError st |}.
Proof.
  intros Hentry Hne Hparse. unfold restoredSelection. load_pages_part.
  rewrite Hentry. destruct savedPages as [|c rest]; [done|].
  cbn [completion queued world]. rewrite Hparse.
  cbn [completion queued world].
  destruct (localStorage w !! "editor-currentPageId") as [[|c' id]|];
    cbn [JsString.truthy from_option andb];
    try destruct (JsObject.reads (String c' id) parsedPages);
    destruct (JsObject.keys parsedPages); reflexivity.
Qed.

(** The state after a load that finds no usable "editor-pages" entry (none,
    or the empty string): a page is created from the first template, or
    without blocks when the catalogue is empty. *)
Lemma load_unseeded w st :
  localStorage w !! "editor-pages" = None \/ localStorage w !! "editor-pages" = Some "" ->
  state_after loadEffect env w st =
  {| pages := JsObject.set (newPageId_at env w)
                (PageValue.Full
                   (newPage_at env w (PageTemplate.blocks <$> head (pageTemplates env))))
                (pages st);
     currentPageId := Some (newPageId_at env w);
     theme := loadedTheme env w;
     isCommandPaletteOpen := isCommandPaletteOpen st;
     isAiSearchOpen := isAiSearchOpen st;
     renderError := renderError st |}.
Proof.
  intros Hentry. load_pages_part.
  assert (match localStorage w !! "editor-pages" with
          | Some (String _ _) => False | _ => True end) as Hfalsy.
  { by destruct Hentry as [-> | ->]. }
  destruct (localStorage w !! "editor-pages") as [[|c rest]|]; try done;
    destruct (pageTemplates env) as [|template others];
    cbn [completion queued world console_error head fmap option_fmap option_map];
    rewrite handleAddPage_run; reflexivity.
Qed.

End LoadingMore.


(** The selection a load takes from the durable store need not be a key:
    here it is the name of an inherited member. *)
Example load_selects_inherited_name :
  let w := {| ticks := 0;
              localStorage := {[ "editor-pages" := "[pages of st2]";
                                 "editor-currentPageId" := "constructor" ]};
              console := [] |} in
  let st' := state_after loadEffect env_json w initialState in
  pages st' = pages st2 /\ currentPageId st' = Some "constructor" /\
  JsObject.get "constructor" (pages st') = None.
Proof. repeat split; reflexivity. Qed.

(** ** Saving: what it touches and how it fails *)

Section SavingMore.
Variable env : Env.

Ltac save_cases r w :=
  unfold saveEffect, mbind, Handler_bind, try_catch, localStorage_setItem,
    localStorage_removeItem, stringify_pages, console_error;
  cbn [completion queued world ticks localStorage console];
  destruct (storageFull env (localStorage w) _ _);
  cbn [completion queued world ticks localStorage console]; try done;
  destruct (pages r) as [|first others];
  cbn [JsObject.keys List.map length Nat.ltb Nat.leb completion queued world
       ticks localStorage console];
  try (destruct (storageFull env _ "editor-pages" _);
       cbn [completion queued world ticks localStorage console]);
  destruct (currentPageId r) as [[|c id]|];
  cbn [completion queued world ticks localStorage console]; try done;
  try (destruct (storageFull env _ "editor-currentPageId" _);
       cbn [completion queued world ticks localStorage console]); try done.

(** The save effect never calls a state setter and reads no clock. *)
Lemma save_queues_nothing w r :
  queued (saveEffect r env w) = [] /\ ticks (world (saveEffect r env w)) = ticks w.
Proof. save_cases r w. Qed.

Lemma save_other_keys w r k :
  k <> "editor-theme" -> k <> "editor-pages" -> k <> "editor-currentPageId" ->
  localStorage (world (saveEffect r env w)) !! k = localStorage w !! k.
Proof. intros H1 H2 H3. save_cases r w; by simplify_map_eq. Qed.
End SavingMore.

Lemma Theme_of_string_Theme_string t : Theme_of_string (Theme_string t) = Some t.
Proof. by destruct t. Qed.

(** X16: a save that the store accepts, followed by a load in a fresh
    session, brings back the pages and the theme, provided the mapping is
    not empty and its encoding decodes to it; the selection comes back
    when [pages] reads at it — as a key or as the name of a member every
    object inherits — and otherwise becomes the first key. *)
Theorem save_then_load_restores (env : Env) (w : World) (r : State) :
  completion (saveEffect r env w) = Normal tt ->
  console (world (saveEffect r env w)) = console w ->
  pages r <> [] ->
  JSON_stringify env (pages r) <> "" ->
  JSON_parse env (JSON_stringify env (pages r)) = Some (pages r) ->
  let st' := state_after loadEffect env (world (saveEffect r env w)) initialState in
  pages st' = pages r /\
  theme st' = theme r /\
  currentPageId st' =
    match currentPageValue r with
    | JsObject.Missing => head (JsObject.keys (pages r))
    | _ => currentPageId r
    end.
Proof.
  intros Hdone Hlog Hpages Hjson Hparse. cbv zeta.
  pose proof (save_store env w r Hdone Hlog) as Hstore. cbv zeta in Hstore.
  destruct (pages r) as [|first others] eqn:Hr; [done|].
  set (w' := world (saveEffect r env w)) in *.
  assert (localStorage w' !! "editor-pages" = Some (JSON_stringify env (pages r))) as Hp.
  { rewrite Hstore, Hr. destruct (currentPageId r) as [[|c id]|]; by simplify_map_eq. }
  assert (localStorage w' !! "editor-theme" = Some (Theme_string (theme r))) as Ht.
  { rewrite Hstore. destruct (currentPageId r) as [[|c id]|]; by simplify_map_eq. }
  assert (localStorage w' !! "editor-currentPageId"
          = if JsString.truthy (currentPageId r) then currentPageId r else None) as Hc.
  { rewrite Hstore. destruct (currentPageId r) as [[|c id]|]; by simplify_map_eq. }
  rewrite (load_parsed env w' _ (JSON_stringify env (pages r)) (pages r));
    [|done|by rewrite Hr|by rewrite Hr].
  simpl. split; [by rewrite Hr|]. split.
  { unfold loadedTheme. rewrite Ht. simpl. by rewrite Theme_of_string_Theme_string. }
  rewrite Hc. unfold restoredSelection, currentPageValue, JsObject.reads.
  rewrite Hr. destruct (currentPageId r) as [[|c id]|]; try reflexivity.
  cbn [JsString.truthy from_option andb].
  by destruct (JsObject.read (String c id) (first :: others)).
Qed.

Lemma save_then_load_restores_witness :
  let st' := state_after loadEffect env_json (world (saveEffect st2 env_json world_saved))
                         initialState in
  pages st' = pages st2 /\ theme st' = dark /\ currentPageId st' = Some "page-1".
Proof.
  apply (save_then_load_restores env_json world_saved st2); try reflexivity; discriminate.
Defined.

(** X17: a save of an empty [pages] mapping that the store accepts,
    followed by a load in a fresh session, does not bring back the empty
    mapping: the load finds no entry and seeds exactly one page, which it
    selects; the theme comes back. *)
Theorem save_empty_then_load_seeds (env : Env) (w : World) (r : State) :
  completion (saveEffect r env w) = Normal tt ->
  console (world (saveEffect r env w)) = console w ->
  pages r = [] ->
  let st' := state_after loadEffect env (world (saveEffect r env w)) initialState in
  (exists page : Page.t,
     pages st' = [(Page.id page, PageValue.Full page)] /\
     currentPageId st' = Some (Page.id page)) /\
  theme st' = theme r.
Proof.
  intros Hdone Hlog Hpages. cbv zeta.
  pose proof (save_store env w r Hdone Hlog) as Hstore. cbv zeta in Hstore.
  rewrite Hpages in Hstore.
  set (w' := world (saveEffect r env w)) in *.
  assert (localStorage w' !! "editor-pages" = None) as Hp.
  { rewrite Hstore. destruct (currentPageId r) as [[|c id]|]; by simplify_map_eq. }
  assert (localStorage w' !! "editor-theme" = Some (Theme_string (theme r))) as Ht.
  { rewrite Hstore. destruct (currentPageId r) as [[|c id]|]; by simplify_map_eq. }
  rewrite load_unseeded by auto. simpl. rewrite set_nil. split.
  - exists (newPage_at env w' (PageTemplate.blocks <$> head (pageTemplates env))).
    split; reflexivity.
  - unfold loadedTheme. rewrite Ht. simpl. by rewrite Theme_of_string_Theme_string.
Qed.

Lemma save_empty_then_load_seeds_witness :
  let st' := state_after loadEffect env_json
                         (world (saveEffect st_empty_dark env_json world_saved))
                         initialState in
  (exists page : Page.t,
     pages st' = [(Page.id page, PageValue.Full page)] /\
     currentPageId st' = Some (Page.id page)) /\
  theme st' = dark.
Proof.
  exact (save_empty_then_load_seeds env_json world_saved st_empty_dark
           eq_refl eq_refl eq_refl).
Defined.

(** X18: the save effect never changes the in-memory state (it calls no
    state setter), reads no clock, and leaves every durable entry other
    than its three keys as it was — also when writes are refused. *)
Theorem save_touches_only_its_keys (env : Env) (w : World) (r : State) (k : string) :
  k <> "editor-theme" -> k <> "editor-pages" -> k <> "editor-currentPageId" ->
  queued (saveEffect r env w) = [] /\
  ticks (world (saveEffect r env w)) = ticks w /\
  localStorage (world (saveEffect r env w)) !! k = localStorage w !! k.
Proof.
  intros H1 H2 H3.
  destruct (save_queues_nothing env w r) as [Hq Ht].
  split; [done|]. split; [done|]. by apply save_other_keys.
Qed.

Lemma save_touches_only_its_keys_witness :
  queued (saveEffect st2 env_small_store world_shared) = [] /\
  ticks (world (saveEffect st2 env_small_store world_shared)) = 4%nat /\
  localStorage (world (saveEffect st2 env_small_store world_shared)) !! "other-app"
  = Some "settings".
Proof.
  apply (save_touches_only_its_keys env_small_store world_shared st2 "other-app");
    discriminate.
Defined.

(** X19: the theme write stands outside the [try]: when the store refuses
    it, the save effect throws and has stored nothing; when the store
    takes it, the effect completes normally whatever happens to the later
    writes, which are caught. *)
Theorem save_throws_only_on_theme_write (env : Env) (w : World) (r : State) :
  if storageFull env (localStorage w) "editor-theme" (Theme_string (theme r))
  then saveEffect r env w
       = {| completion := Throw "QuotaExceededError"; queued := []; world := w |}
  else completion (saveEffect r env w) = Normal tt.
Proof.
  unfold saveEffect, mbind, Handler_bind, try_catch, localStorage_setItem,
    localStorage_removeItem, stringify_pages, console_error.
  cbn [completion queued world ticks localStorage console].
  destruct (storageFull env (localStorage w) _ _);
    cbn [completion queued world ticks localStorage console]; [done|].
  destruct (pages r) as [|first others];
    cbn [JsObject.keys List.map length Nat.ltb Nat.leb completion queued world
         ticks localStorage console];
    try (destruct (storageFull env _ "editor-pages" _);
         cbn [completion queued world ticks localStorage console]); try done;
    destruct (currentPageId r) as [[|c id]|];
    cbn [completion queued world ticks localStorage console]; try done;
    by destruct (storageFull env _ "editor-currentPageId" _).
Qed.

(** X20: when the store takes the theme but refuses the pages entry, the
    failure is logged and the rest of the [try] block is skipped: the
    "editor-currentPageId" entry is neither written nor removed, and the
    old "editor-pages" entry stays. *)
Theorem save_pages_refused_skips_selection (env : Env) (w : World) (r : State) :
  storageFull env (localStorage w) "editor-theme" (Theme_string (theme r)) = false ->
  pages r <> [] ->
  storageFull env (<["editor-theme" := Theme_string (theme r)]> (localStorage w))
              "editor-pages" (JSON_stringify env (pages r)) = true ->
  saveEffect r env w =
  {| completion := Normal tt;
     queued := [];
     world := {| ticks := ticks w;
                 localStorage := <["editor-theme" := Theme_string (theme r)]> (localStorage w);
                 console := (console w ++ ["Failed to save to localStorage"])%list |} |}.
Proof.
  intros Htheme Hpages Hrefused.
  unfold saveEffect, mbind, Handler_bind, try_catch, localStorage_setItem,
    localStorage_removeItem, stringify_pages, console_error.
  cbn [completion queued world ticks localStorage console].
  rewrite Htheme. cbn [completion queued world ticks localStorage console].
  destruct (pages r) as [|first others]; [done|].
  cbn [JsObject.keys List.map length Nat.ltb Nat.leb completion queued world
       ticks localStorage console].
  rewrite Hrefused. reflexivity.
Qed.

Lemma save_pages_refused_skips_selection_witness :
  saveEffect st2 env_small_store world_saved =
  {| completion := Normal tt;
     queued := [];
     world := {| ticks := 0;
                 localStorage := <["editor-theme" := "dark"]> (localStorage world_saved);
                 console := ["Failed to save to localStorage"] |} |}.
Proof.
  apply (save_pages_refused_skips_selection env_small_store world_saved st2);
    [reflexivity|discriminate|reflexivity].
Defined.

(** ** Navigation and the palette *)

(** X21: [handleSwitchPage] with the non-empty id of an existing page
    makes that page the current one and closes the command palette; it
    touches neither [pages] nor the theme and reads no clock. *)
Theorem switchPage_selects_and_closes_palette
  (env : Env) (w : World) (st : State) (id : string) (page : Page.t) :
  id <> "" ->
  JsObject.get id (pages st) = Some (PageValue.Full page) ->
  let '(w', st') := step env (w, st) (switchPage id) in
  w' = w /\
  currentPage st' = Some page /\
  pages st' = pages st /\
  theme st' = theme st /\
  isCommandPaletteOpen st' = false.
Proof.
  intros Hne Hg. unfold step. simpl.
  unfold currentPage, currentPageValue, JsObject.read. simpl.
  destruct id as [|c id]; [done|]. by rewrite Hg.
Qed.

Lemma switchPage_selects_and_closes_palette_witness :
  let '(w', st') := step env0 (world0, st2_palette) (switchPage "page-2") in
  w' = world0 /\
  currentPage st' = Some {| Page.id := "page-2"; Page.title := "Untitled";
                            Page.blocks := [paragraph "text"] |} /\
  pages st' = pages st2_palette /\
  theme st' = dark /\
  isCommandPaletteOpen st' = false.
Proof.
  apply (switchPage_selects_and_closes_palette env0 world0 st2_palette "page-2");
    [discriminate|reflexivity].
Defined.

(** X22: the [keydown] listener reacts to the key "k" with Meta or Ctrl
    held, and to nothing else: then it prevents the default action and
    flips the palette flag, so that a second such key press restores the
    state; it never touches the pages, the selection or the theme. *)
Theorem hotkey_toggles_palette (env : Env) (w : World) (st : State) (e : KeyboardEvent) :
  let hot := (metaKey e || ctrlKey e) && String.eqb (key e) "k" in
  let '(prevented, w', st') := dispatch (keydownHandler e) env w st in
  prevented = Normal hot /\
  w' = w /\
  st' = {| pages := pages st; currentPageId := currentPageId st; theme := theme st;
           isCommandPaletteOpen := xorb hot (isCommandPaletteOpen st);
           isAiSearchOpen := isAiSearchOpen st;
           renderError := renderError st |} /\
  state_after (keydownHandler e) env w st' = st.
Proof.
  cbv zeta. unfold dispatch, state_after, keydownHandler.
  destruct ((metaKey e || ctrlKey e) && String.eqb (key e) "k"); simpl.
  - repeat split; try done. destruct st as [? ? ? [] ? ?]; reflexivity.
  - repeat split; try done; destruct st as [? ? ? [] ? ?]; reflexivity.
Qed.

(** ** How the callbacks compose *)

Section Composition.
Import JsObject JsObjectFacts.

Lemma delete_set_new {V} k (v : V) (o : JsObject.t V) :
  get k o = None -> array_index k = None -> delete k (set k v o) = o.
Proof.
  intros Hg Hi. unfold set. rewrite Hg, Hi. unfold delete.
  rewrite List.filter_app. simpl. rewrite String.eqb_refl. simpl.
  rewrite app_nil_r. by apply delete_absent.
Qed.

Lemma filter_keys_absent {V} k (o : JsObject.t V) :
  get k o = None ->
  List.filter (fun id => negb (String.eqb id k)) (keys o) = keys o.
Proof. intros Hg. by rewrite <- keys_delete, delete_absent. Qed.

(** What an answered or failed search leaves of the keys and the
    selection, when its updater does not throw. *)
Lemma handleAiSearch_keys_selection env w r st prompt :
  capturedPageValue r st <> Inherited ->
  keys (pages (state_after (handleAiSearch r prompt) env w st)) = keys (pages st) /\
  currentPageId (state_after (handleAiSearch r prompt) env w st) = currentPageId st /\
  renderError (state_after (handleAiSearch r prompt) env w st) = renderError st.
Proof.
  intros Hcaptured.
  destruct (generateWithGoogleSearch env prompt) as [[text sources]|error] eqn:Hgen.
  - destruct (currentPageId r) as [[|c id]|] eqn:Hid.
    + unfold state_after, handleAiSearch. by rewrite Hid.
    + rewrite (aiSearch_state env w r st prompt (String c id) text sources) by done.
      rewrite (capturedPageValue_read r st _ Hid) in Hcaptured.
      destruct (read (String c id) (pages st)) as [value| |] eqn:Hread; try done.
      simpl. split; [|done]. apply keys_set_existing.
      rewrite (read_Own _ _ _ Hread). eauto.
    + unfold state_after, handleAiSearch. by rewrite Hid.
  - unfold state_after. by rewrite (handleAiSearch_rejected env w r prompt error Hgen).
Qed.

Lemma updateBlocks_keys_selection env w st newBlocks :
  (forall id, In id (keys (pages st)) ->
              In id (keys (pages (state_after (updateBlocksForCurrentPage st newBlocks)
                                              env w st)))) /\
  currentPageId (state_after (updateBlocksForCurrentPage st newBlocks) env w st)
  = currentPageId st /\
  renderError (state_after (updateBlocksForCurrentPage st newBlocks) env w st)
  = renderError st.
Proof.
  destruct (JsString.truthy (currentPageId st)) eqn:Htruthy.
  2: { by rewrite updateBlocks_state_empty. }
  destruct (currentPageId st) as [[|c id]|] eqn:Hid; try done.
  rewrite (updateBlocks_state env w st newBlocks (String c id)) by done. simpl.
  split; [|done]. intros k Hin. rewrite replaceBlocks_keys.
  destruct (read (String c id) (pages st)); try done.
  apply in_or_app. by left.
Qed.
End Composition.

(** X23: creating a page under a fresh id and deleting it right away
    gives back the [pages] mapping as it was, but not the selection: the
    first key becomes the selected page, whichever page was selected
    before. *)
Theorem create_then_delete_restores_pages
  (env : Env) (w : World) (st : State) (blocks : option (list ContentBlock.t)) :
  JsObject.get ("page-" +:+ pretty (clock env (ticks w))) (pages st) = None ->
  pages st <> [] ->
  let created := step env (w, st) (createPage blocks) in
  let st' := snd (step env created (deletePage ("page-" +:+ pretty (clock env (ticks w))))) in
  pages st' = pages st /\
  currentPageId st' = head (JsObject.keys (pages st)).
Proof.
  intros Hfresh Hpages. cbv zeta.
  assert (step env (w, st) (createPage blocks)
          = (tick3 w, snd (step env (w, st) (createPage blocks)))) as ->.
  { unfold step. cbn [callback fst snd]. by rewrite handleAddPage_run. }
  rewrite createPage_state.
  unfold step. cbn [callback fst snd].
  unfold handleDeletePage, mbind, Handler_bind.
  cbn [call completion queued world pages currentPageId].
  rewrite bool_decide_eq_true_2 by done.
  rewrite keys_set_new by done. rewrite List.filter_app. simpl.
  fold (newPageId_at env w). rewrite String.eqb_refl. simpl. rewrite app_nil_r.
  rewrite filter_keys_absent by done.
  destruct (pages st) as [|[first page] others] eqn:Hst; [done|].
  simpl. split; [|done].
  rewrite <- Hst. apply delete_set_new; [by rewrite Hst|done].
Qed.

Lemma create_then_delete_restores_pages_witness :
  let created := step env0 (world0, st2_second) (createPage None) in
  let st' := snd (step env0 created (deletePage "page-1700000000000")) in
  pages st' = pages st2_second /\ currentPageId st' = Some "page-1".
Proof.
  apply (create_then_delete_restores_pages env0 world0 st2_second None);
    [reflexivity|discriminate].
Defined.

(** X24: the selection being empty or a key of [pages] is also kept by
    the callbacks that edit pages: [updateBlocksForCurrentPage], and
    [handleAiSearch] however the search settles and whichever render it
    was started from, as long as the id that render captured is a key of
    [pages] or an id at which [pages] has nothing (so that the updater
    does not throw); and then no update ends in an error. *)
Theorem edits_keep_selection_resolved
  (env : Env) (w : World) (blank : option string -> Prop) (r st : State)
  (newBlocks : list ContentBlock.t) (prompt : string) :
  resolves_unless blank st ->
  capturedPageValue r st <> JsObject.Inherited ->
  let edited := state_after (updateBlocksForCurrentPage st newBlocks) env w st in
  let searched := state_after (handleAiSearch r prompt) env w st in
  resolves_unless blank edited /\
  resolves_unless blank searched /\
  renderError edited = renderError st /\
  renderError searched = renderError st.
Proof.
  intros Hinv Hcaptured. cbv zeta.
  destruct (updateBlocks_keys_selection env w st newBlocks) as (Hkeys & Hcur & Herr).
  destruct (handleAiSearch_keys_selection env w r st prompt Hcaptured)
    as (Hkeys' & Hcur' & Herr').
  repeat split; try done.
  - unfold resolves_unless. rewrite Hcur.
    destruct Hinv as [Hblank|(id & Hid & Hin)]; [by left|].
    right. exists id. split; [done|by apply Hkeys].
  - unfold resolves_unless. by rewrite Hkeys', Hcur'.
Qed.

Lemma edits_keep_selection_resolved_witness :
  let edited := state_after (updateBlocksForCurrentPage st2 [heading "New"])
                            env_search world0 st2 in
  let searched := state_after (handleAiSearch st2_second "what is X?") env_search world0 st2 in
  resolves_unless is_null edited /\
  resolves_unless is_null searched /\
  renderError edited = None /\
  renderError searched = None.
Proof.
  apply (edits_keep_selection_resolved env_search world0 is_null st2_second st2
           [heading "New"] "what is X?").
  - right. exists "page-1". split; [reflexivity|left; reflexivity].
  - discriminate.
Defined.
